(** * krotov.convergence: convergence predicates

    A shallow embedding of [src/krotov/convergence.py] and the proofs of
    its specification.

    Modelling choices:
    - a Python [float] is an IEEE 754 binary64 number, that is Rocq's
      primitive [float]: [-], [abs] and [<] are the primitive operations;
    - the Python objects that occur are [None], floats and strings;
    - a raised exception is the result [Raise e]; [try/except] is a match
      on it;
    - [glom.glom(result, spec, **kwargs)] belongs to an external library:
      a path specification is any function from the record to an outcome;
    - the builtins [float(str)] and [str(float)] are an interface of the
      development (class [Builtins]). *)

From Stdlib Require Import ZArith List String Ascii Bool Lia.
From Stdlib Require Import Floats DecimalString.
Import ListNotations.

Set Warnings "-inexact-float".

Local Open Scope string_scope.
Local Open Scope Z_scope.

(** ** Python objects and exceptions *)

Inductive value : Type :=
| VNone
| VFloat (x : float)
| VStr (s : string).

(** The exception classes that matter to the module.  [PathAccessError] is
    glom's error for a path segment that cannot be resolved; it derives from
    [GlomError], [AttributeError], [KeyError] and [IndexError]. *)
Inductive exn_class : Type :=
| AttributeError
| KeyError
| IndexError
| GlomError
| PathAccessError
| TypeError
| ValueError
| OverflowError
| OtherError (cls : string).

Record exn : Type := Exn { exn_cls : exn_class; exn_msg : string }.

Inductive outcome (A : Type) : Type :=
| Ok (a : A)
| Raise (e : exn).
Arguments Ok {A} a.
Arguments Raise {A} e.

Definition bind {A B : Type} (m : outcome A) (k : A -> outcome B) : outcome B :=
  match m with
  | Ok a => k a
  | Raise e => Raise e
  end.

Notation "x <- m ;; k" := (bind m (fun x => k))
  (at level 100, m at next level, right associativity).

(** [except (AttributeError, KeyError, IndexError, glom.GlomError)] *)
Definition caught (e : exn) : bool :=
  match exn_cls e with
  | AttributeError | KeyError | IndexError | GlomError | PathAccessError => true
  | TypeError | ValueError | OverflowError | OtherError _ => false
  end.

(** [bool(msg)] *)
Definition truthy (v : value) : bool :=
  match v with
  | VNone => false
  | VFloat x => negb (x =? 0)%float
  | VStr s => negb (String.eqb s "")
  end.

Definition type_name (v : value) : string :=
  match v with
  | VNone => "NoneType"
  | VFloat _ => "float"
  | VStr _ => "str"
  end.

(** [a - b] *)
Definition py_sub (a b : value) : outcome value :=
  match a, b with
  | VFloat x, VFloat y => Ok (VFloat (x - y)%float)
  | _, _ =>
      Raise (Exn TypeError
               ("unsupported operand type(s) for -: '" ++ type_name a
                  ++ "' and '" ++ type_name b ++ "'"))
  end.

(** [abs(a)] *)
Definition py_abs (a : value) : outcome value :=
  match a with
  | VFloat x => Ok (VFloat (abs x))
  | _ => Raise (Exn TypeError ("bad operand type for abs(): '" ++ type_name a ++ "'"))
  end.

(** [a < y] for a float [y] *)
Definition py_lt (a : value) (y : float) : outcome bool :=
  match a with
  | VFloat x => Ok (x <? y)%float
  | _ =>
      Raise (Exn TypeError
               ("'<' not supported between instances of '" ++ type_name a
                  ++ "' and 'float'"))
  end.

(** ** The limit: an int, a float, or the string form of a float *)

Inductive limit_t : Type :=
| LInt (n : Z)
| LFloat (x : float)
| LStr (s : string).

(** [float(n)] for an int: the nearest binary64 number, ties to even;
    [OverflowError] when that is not finite. *)
Definition float_of_int (n : Z) : outcome float :=
  let x := SF2Prim (binary_normalize prec emax n 0 false) in
  if is_infinity x
  then Raise (Exn OverflowError "int too large to convert to float")
  else Ok x.

Definition str_of_int (n : Z) : string := NilZero.string_of_int (Z.to_int n).

(** The two builtins the module calls on strings and floats:
    [float(s)] for a string ([None] where Python raises [ValueError]) and
    [str(x)] for a float. *)
Class Builtins : Type := {
  float_of_str : string -> option float;
  str_of_float : float -> string
}.

Section Conversions.

Context `{Builtins}.

(** [float(limit)] *)
Definition float_of_limit (limit : limit_t) : outcome float :=
  match limit with
  | LInt n => float_of_int n
  | LFloat x => Ok x
  | LStr s =>
      match float_of_str s with
      | Some x => Ok x
      | None =>
          Raise (Exn ValueError ("could not convert string to float: '" ++ s ++ "'"))
      end
  end.

(** [str(limit)], as ["%s"] formats it *)
Definition str_of_limit (limit : limit_t) : string :=
  match limit with
  | LInt n => str_of_int n
  | LFloat x => str_of_float x
  | LStr s => s
  end.

(** ["%s < %s" % (name, limit)] *)
Definition message (name : string) (limit : limit_t) : string :=
  name ++ " < " ++ str_of_limit limit.

End Conversions.

(** ** The history record and path specifications *)

(** [krotov.result.Result], reduced to the series the module reads. *)
Record Result : Type := { info_vals : list value }.

(** A glom specification: what it resolves to on a record, and [str(spec)]. *)
Record path_spec : Type := {
  resolve : Result -> outcome value;
  spec_repr : string
}.

(** [glom.glom(result, spec, **kwargs)] *)
Definition glom (result : Result) (spec : path_spec) : outcome value :=
  resolve spec result.

(** [l[i]] on a Python list: a negative index counts from the end. *)
Definition py_index {A : Type} (l : list A) (i : Z) : option A :=
  let n := Z.of_nat (List.length l) in
  let j := if i <? 0 then i + n else i in
  if (0 <=? j) && (j <? n) then nth_error l (Z.to_nat j) else None.

(** [('info_vals', glom.T[i])]: the entry at position [i] of [info_vals].
    The error text stands for glom's report of the failed segment. *)
Definition info_vals_T (i : Z) : path_spec := {|
  resolve := fun result =>
    match py_index (info_vals result) i with
    | Some v => Ok v
    | None =>
        Raise (Exn PathAccessError
                 ("could not access " ++ str_of_int i
                    ++ ", got error: IndexError('list index out of range')"))
    end;
  spec_repr := "('info_vals', T[" ++ str_of_int i ++ "])"
|}.

(** A callable is a valid spec too: [spec=lambda r: r.info_vals[-1]]. *)
Definition lambda_info_vals (i : Z) : path_spec := {|
  resolve := fun result =>
    match py_index (info_vals result) i with
    | Some v => Ok v
    | None => Raise (Exn IndexError "list index out of range")
    end;
  spec_repr := "<function <lambda>>"
|}.

Definition is_None (v : value) : bool :=
  match v with
  | VNone => true
  | _ => false
  end.

(** One [try: v = glom.glom(result, spec) except (...) as exc: v = None;
    delayed_exc = exc] block of [delta_below]. *)
Definition try_glom (result : Result) (spec : path_spec) (delayed_exc : option exn)
  : outcome (value * option exn) :=
  match glom result spec with
  | Ok v => Ok (v, delayed_exc)
  | Raise exc => if caught exc then Ok (VNone, Some exc) else Raise exc
  end.

(** The name that [delta_below] generates: the letter is U+0394. *)
Definition Delta : string :=
  String (ascii_of_nat 206) (String (ascii_of_nat 148) EmptyString).

(** [if name is None: name = str(spec)] *)
Definition value_name (spec : path_spec) (name : option string) : string :=
  match name with
  | Some n => n
  | None => spec_repr spec
  end.

(** [if name is None: name = "D(%s,%s)" % (spec1, spec0)], [D] the letter
    Delta. *)
Definition delta_name (spec1 spec0 : path_spec) (name : option string) : string :=
  match name with
  | Some n => n
  | None => Delta ++ "(" ++ spec_repr spec1 ++ "," ++ spec_repr spec0 ++ ")"
  end.

Section Predicates.

Context `{Builtins}.

(** ** [value_below] *)

Definition value_below (limit : limit_t) (spec : path_spec) (name : option string)
  : Result -> outcome value :=
  let name := value_name spec name in
  fun result =>
    v <- glom result spec ;;
    lim <- float_of_limit limit ;;
    below <- py_lt v lim ;;
    if below : bool then Ok (VStr (message name limit)) else Ok VNone.

(** ** [delta_below] *)

Definition delta_below (limit : limit_t) (spec1 spec0 : path_spec)
  (absolute_value : bool) (name : option string) : Result -> outcome value :=
  let name := delta_name spec1 spec0 name in
  fun result =>
    r1 <- try_glom result spec1 None ;;
    let '(v1, delayed_exc) := r1 in
    r0 <- try_glom result spec0 delayed_exc ;;
    let '(v0, delayed_exc) := r0 in
    if xorb (is_None v1) (is_None v0) then Ok VNone
    else
      match delayed_exc with
      | Some exc => Raise exc
      | None =>
          delta <- py_sub v1 v0 ;;
          delta <- (if absolute_value then py_abs delta else Ok delta) ;;
          lim <- float_of_limit limit ;;
          below <- py_lt delta lim ;;
          if below : bool then Ok (VStr (message name limit)) else Ok VNone
      end.

(** The last lines of [delta_below], from [delta = v1 - v0] on, as a
    function of the two values: the proofs refer to it. *)
Definition compare_delta (limit : limit_t) (absolute_value : bool) (name : string)
  (v1 v0 : value) : outcome value :=
  delta <- py_sub v1 v0 ;;
  delta <- (if absolute_value then py_abs delta else Ok delta) ;;
  lim <- float_of_limit limit ;;
  below <- py_lt delta lim ;;
  if below : bool then Ok (VStr (message name limit)) else Ok VNone.

(** ** The monotonicity checks *)

Definition _monotonic_convergence : Result -> outcome value :=
  delta_below (LInt 0) (info_vals_T (-2)) (info_vals_T (-1)) false
    (Some "Loss of monotonic convergence; error decrease").

Definition _monotonic_fidelity : Result -> outcome value :=
  delta_below (LInt 0) (info_vals_T (-1)) (info_vals_T (-2)) false
    (Some "Loss of monotonic convergence; fidelity increase").

Definition check_monotonic_error (result : Result) : outcome value :=
  _monotonic_convergence result.

Definition check_monotonic_fidelity (result : Result) : outcome value :=
  _monotonic_fidelity result.

End Predicates.

(** ** [Or] *)

(** A [check_convergence] function as [Or] sees it: any callable, which may
    act on the world [W] besides returning or raising. *)
Definition predicate (W : Type) : Type := Result -> W -> outcome value * W.

(** A predicate without effects. *)
Definition pure {W : Type} (p : Result -> outcome value) : predicate W :=
  fun result w => (p result, w).

(** [for func in funcs: msg = func(result); if bool(msg) is True: return msg]
    and [return None] after the loop. *)
Fixpoint Or {W : Type} (funcs : list (predicate W)) : predicate W :=
  fun result w =>
    match funcs with
    | [] => (Ok VNone, w)
    | func :: funcs' =>
        match func result w with
        | (Ok msg, w') =>
            if truthy msg then (Ok msg, w') else Or funcs' result w'
        | (Raise e, w') => (Raise e, w')
        end
    end.

(** Every predicate of [funcs], called in order from the world [w], returned
    a falsy result and left the world [w']. *)
Inductive all_falsy {W : Type} (result : Result)
  : list (predicate W) -> W -> W -> Prop :=
| all_falsy_nil : forall w, all_falsy result [] w w
| all_falsy_cons : forall func funcs w w1 w2 msg,
    func result w = (Ok msg, w1) ->
    truthy msg = false ->
    all_falsy result funcs w1 w2 ->
    all_falsy result (func :: funcs) w w2.

(** Instrumentation: the predicate records its position in a call log each
    time it is called. *)
Definition logged {W : Type} (i : nat) (func : predicate W)
  : predicate (W * list nat) :=
  fun result wl =>
    let '(o, w') := func result (fst wl) in (o, (w', (snd wl ++ [i])%list)).

Fixpoint log_calls {W : Type} (i : nat) (funcs : list (predicate W))
  : list (predicate (W * list nat)) :=
  match funcs with
  | [] => []
  | func :: funcs' => logged i func :: log_calls (S i) funcs'
  end.

(** ** The builtins on the literals of the docstrings *)

(** A table standing for [float(s)] and [str(x)] on the literals that the
    docstring examples use: [float('1e-4')] is [1e-4] and [str(1e-4)] is
    ['0.0001']; other strings do not parse. *)
Definition doc_builtins : Builtins := {|
  float_of_str := fun s => if String.eqb s "1e-4" then Some 1e-4%float else None;
  str_of_float := fun x => if (x =? 1e-4)%float then "0.0001" else "<float>"
|}.

(** * Properties *)

(** ** [Or] *)

Section OrProperties.

Context {W : Type}.
Implicit Types (funcs : list (predicate W)) (result : Result) (w : W).

Lemma Or_all_falsy funcs result w w' :
  all_falsy result funcs w w' -> Or funcs result w = (Ok VNone, w').
Proof.
  induction 1 as [w | func funcs w w1 w2 msg Hcall Hmsg _ IH]; simpl.
  - reflexivity.
  - rewrite Hcall, Hmsg. exact IH.
Qed.

Lemma Or_app_falsy funcs1 funcs2 result w w1 :
  all_falsy result funcs1 w w1 ->
  Or (funcs1 ++ funcs2)%list result w = Or funcs2 result w1.
Proof.
  induction 1 as [w | func funcs w w1 w2 msg Hcall Hmsg _ IH]; simpl.
  - reflexivity.
  - rewrite Hcall, Hmsg. exact IH.
Qed.

Lemma Or_None_all_falsy funcs result :
  forall w w', Or funcs result w = (Ok VNone, w') -> all_falsy result funcs w w'.
Proof.
  induction funcs as [| func funcs IH]; simpl; intros w w' HOr.
  - injection HOr as <-. constructor.
  - destruct (func result w) as [[msg | e] w1] eqn:Hcall; [| discriminate].
    destruct (truthy msg) eqn:Hmsg.
    + injection HOr as -> ->. discriminate.
    + econstructor; eauto.
Qed.

Lemma log_calls_all_falsy funcs result w w' :
  all_falsy result funcs w w' ->
  forall i log,
    all_falsy result (log_calls i funcs) (w, log)
      (w', (log ++ seq i (List.length funcs))%list).
Proof.
  induction 1 as [w | func funcs w w1 w2 msg Hcall Hmsg _ IH]; intros i log; simpl.
  - rewrite app_nil_r. constructor.
  - econstructor.
    + unfold logged; simpl. rewrite Hcall. reflexivity.
    + exact Hmsg.
    + specialize (IH (S i) (log ++ [i])%list).
      rewrite <- app_assoc in IH. exact IH.
Qed.

Lemma log_calls_app funcs1 funcs2 i :
  log_calls i (funcs1 ++ funcs2)%list
  = (log_calls i funcs1 ++ log_calls (List.length funcs1 + i)%nat funcs2)%list.
Proof.
  revert i; induction funcs1 as [| func funcs1 IH]; intros i; simpl.
  - reflexivity.
  - rewrite IH, Nat.add_succ_r. reflexivity.
Qed.

End OrProperties.

(** C3.  [Or(p1, ..., pn)] calls its predicates in construction order and
    returns the result of the first one whose result is truthy, in the world
    that call left ([w2]): the predicates after it ([funcs2], arbitrary) are
    not called, and the call log holds exactly the positions up to that
    predicate.  It returns [None] if and only if every predicate was called
    and returned a falsy result; the call log then holds every position, in
    order. *)
Theorem Or_first_truthy {W : Type} (funcs : list (predicate W)) result w :
  (forall funcs1 func funcs2 w1 w2 msg,
      funcs = (funcs1 ++ func :: funcs2)%list ->
      all_falsy result funcs1 w w1 ->
      func result w1 = (Ok msg, w2) ->
      truthy msg = true ->
      Or funcs result w = (Ok msg, w2)
      /\ Or (log_calls 0 funcs) result (w, [])
         = (Ok msg, (w2, seq 0 (S (List.length funcs1)))))
  /\ (forall w', Or funcs result w = (Ok VNone, w') <-> all_falsy result funcs w w')
  /\ (forall w',
         all_falsy result funcs w w' ->
         Or (log_calls 0 funcs) result (w, [])
         = (Ok VNone, (w', seq 0 (List.length funcs)))).
Proof.
  split; [| split].
  - intros funcs1 func funcs2 w1 w2 msg -> Hall Hcall Hmsg. split.
    + rewrite (Or_app_falsy _ _ _ _ _ Hall). simpl.
      rewrite Hcall, Hmsg. reflexivity.
    + rewrite log_calls_app.
      rewrite (Or_app_falsy _ _ _ _ _ (log_calls_all_falsy _ _ _ _ Hall 0%nat [])).
      cbn [log_calls Or]. unfold logged. cbn [fst snd]. rewrite Hcall, Hmsg.
      rewrite seq_S, Nat.add_0_r. reflexivity.
  - intros w'. split.
    + apply Or_None_all_falsy.
    + apply Or_all_falsy.
  - intros w' Hall. apply Or_all_falsy.
    exact (log_calls_all_falsy _ _ _ _ Hall 0%nat []).
Qed.

(** C10.  [Or()] with no predicate returns [None] on every record, and
    leaves the world as it is. *)
Theorem Or_empty {W : Type} (result : Result) (w : W) :
  Or (@nil (predicate W)) result w = (Ok VNone, w).
Proof. reflexivity. Qed.

(** ** Floating-point comparison *)

Lemma SFcompare_antisym (x y : spec_float) :
  SFcompare y x = option_map CompOpp (SFcompare x y).
Proof.
  destruct x as [sx | sx | | sx mx ex], y as [sy | sy | | sy my ey];
    simpl; try reflexivity;
    try (destruct sx; reflexivity); try (destruct sy; reflexivity);
    try (destruct sx, sy; reflexivity).
  f_equal. change (Pos.compare_cont Eq) with Pos.compare.
  rewrite (Z.compare_antisym ex ey), (Pos.compare_antisym mx my).
  destruct sx, sy; try reflexivity;
    destruct (ex ?= ey); simpl; try reflexivity;
    destruct (mx ?= my)%positive; reflexivity.
Qed.

(** [y <= x] excludes [x < y]. *)
Lemma ltb_false_of_leb (x y : float) :
  (y <=? x)%float = true -> (x <? y)%float = false.
Proof.
  rewrite leb_spec, ltb_spec. unfold SFleb, SFltb.
  rewrite (SFcompare_antisym (Prim2SF y) (Prim2SF x)).
  destruct (SFcompare (Prim2SF y) (Prim2SF x)) as [[ | | ] |]; simpl;
    intros; congruence.
Qed.

(** A number minus itself is a zero or not a number: never below zero. *)
Lemma sub_diag_not_negative (x : float) : (x - x <? 0)%float = false.
Proof.
  rewrite ltb_spec, sub_spec. unfold SF64sub.
  change (Prim2SF 0) with (S754_zero false).
  destruct (Prim2SF x) as [s | s | | s m e]; simpl.
  - destruct s; reflexivity.
  - destruct s; reflexivity.
  - reflexivity.
  - rewrite Z.sub_diag. reflexivity.
Qed.

(** ** The extraction step of [delta_below] *)

Lemma try_glom_Ok result spec delayed_exc v :
  glom result spec = Ok v -> try_glom result spec delayed_exc = Ok (v, delayed_exc).
Proof. unfold try_glom. intros ->. reflexivity. Qed.

Lemma try_glom_caught result spec delayed_exc e :
  glom result spec = Raise e -> caught e = true ->
  try_glom result spec delayed_exc = Ok (VNone, Some e).
Proof. unfold try_glom. intros -> ->. reflexivity. Qed.

Lemma is_None_false v : v <> VNone -> is_None v = false.
Proof. destruct v; simpl; congruence. Qed.

Section PredicateProperties.

Context `{Builtins}.
Implicit Types (limit : limit_t) (spec : path_spec) (absolute_value : bool)
  (name : option string) (result : Result).

(** *** [value_below] *)

(** C4.  When the spec extracts the number [v] and the limit converts to
    [lim], the predicate returns ["{name} < {limit}"] if [v < lim] and [None]
    otherwise; so it returns the message exactly when [v < lim], and [None]
    when [v >= lim]. *)
Theorem value_below_threshold limit spec name result v lim :
  glom result spec = Ok (VFloat v) ->
  float_of_limit limit = Ok lim ->
  let msg := VStr (message (value_name spec name) limit) in
  value_below limit spec name result
  = (if (v <? lim)%float then Ok msg else Ok VNone)
  /\ (value_below limit spec name result = Ok msg <-> (v <? lim)%float = true)
  /\ ((lim <=? v)%float = true -> value_below limit spec name result = Ok VNone).
Proof.
  intros Hv Hlim msg.
  assert (Heq : value_below limit spec name result
                = if (v <? lim)%float then Ok msg else Ok VNone).
  { unfold value_below. rewrite Hv. cbn [bind]. rewrite Hlim. reflexivity. }
  split; [exact Heq |]. split.
  - rewrite Heq. subst msg. destruct (v <? lim)%float; split; intros; congruence.
  - intros Hge. rewrite Heq, (ltb_false_of_leb _ _ Hge). reflexivity.
Qed.

(** *** [delta_below] *)

Lemma delta_below_extracted limit spec1 spec0 absolute_value name result v1 v0 :
  glom result spec1 = Ok v1 ->
  glom result spec0 = Ok v0 ->
  delta_below limit spec1 spec0 absolute_value name result
  = if xorb (is_None v1) (is_None v0) then Ok VNone
    else compare_delta limit absolute_value (delta_name spec1 spec0 name) v1 v0.
Proof.
  intros H1 H0. unfold delta_below.
  rewrite (try_glom_Ok _ _ _ _ H1). cbn [bind].
  rewrite (try_glom_Ok _ _ _ _ H0). reflexivity.
Qed.

Lemma delta_below_first_missing limit spec1 spec0 absolute_value name result e v0 :
  glom result spec1 = Raise e -> caught e = true ->
  glom result spec0 = Ok v0 ->
  delta_below limit spec1 spec0 absolute_value name result
  = if is_None v0 then Raise e else Ok VNone.
Proof.
  intros H1 Hc H0. unfold delta_below.
  rewrite (try_glom_caught _ _ _ _ H1 Hc). cbn [bind].
  rewrite (try_glom_Ok _ _ _ _ H0). cbn [bind].
  destruct v0; reflexivity.
Qed.

Lemma delta_below_second_missing limit spec1 spec0 absolute_value name result e v1 :
  glom result spec1 = Ok v1 ->
  glom result spec0 = Raise e -> caught e = true ->
  delta_below limit spec1 spec0 absolute_value name result
  = if is_None v1 then Raise e else Ok VNone.
Proof.
  intros H1 H0 Hc. unfold delta_below.
  rewrite (try_glom_Ok _ _ _ _ H1). cbn [bind].
  rewrite (try_glom_caught _ _ _ _ H0 Hc). cbn [bind].
  destruct v1; reflexivity.
Qed.

Lemma delta_below_both_missing limit spec1 spec0 absolute_value name result e1 e0 :
  glom result spec1 = Raise e1 -> caught e1 = true ->
  glom result spec0 = Raise e0 -> caught e0 = true ->
  delta_below limit spec1 spec0 absolute_value name result = Raise e0.
Proof.
  intros H1 Hc1 H0 Hc0. unfold delta_below.
  rewrite (try_glom_caught _ _ _ _ H1 Hc1). cbn [bind].
  rewrite (try_glom_caught _ _ _ _ H0 Hc0). reflexivity.
Qed.

(** C5.  When both specs extract numbers [v1] and [v0] and the limit
    converts to [lim], the predicate takes [delta = v1 - v0], its absolute
    value if [absolute_value] is set, and returns ["{name} < {limit}"] if
    [delta < lim] and [None] otherwise. *)
Theorem delta_below_compares limit spec1 spec0 absolute_value name result v1 v0 lim :
  glom result spec1 = Ok (VFloat v1) ->
  glom result spec0 = Ok (VFloat v0) ->
  float_of_limit limit = Ok lim ->
  let delta := (if absolute_value then abs (v1 - v0) else v1 - v0)%float in
  let msg := VStr (message (delta_name spec1 spec0 name) limit) in
  delta_below limit spec1 spec0 absolute_value name result
  = (if (delta <? lim)%float then Ok msg else Ok VNone)
  /\ (delta_below limit spec1 spec0 absolute_value name result = Ok msg
      <-> (delta <? lim)%float = true).
Proof.
  intros H1 H0 Hlim delta msg.
  assert (Heq : delta_below limit spec1 spec0 absolute_value name result
                = if (delta <? lim)%float then Ok msg else Ok VNone).
  { rewrite (delta_below_extracted _ _ _ _ _ _ _ _ H1 H0).
    cbn [is_None xorb]. unfold compare_delta. cbn [py_sub bind].
    subst delta msg. destruct absolute_value; cbn [py_abs bind];
      rewrite Hlim; reflexivity. }
  split; [exact Heq |].
  rewrite Heq. subst msg. destruct (delta <? lim)%float; split; intros; congruence.
Qed.

(** C6.  When both extractions fail with an error that the predicate
    catches, it raises the error of the second extraction, the one by
    [spec0], as it was caught. *)
Theorem delta_below_raises_last limit spec1 spec0 absolute_value name result e1 e0 :
  glom result spec1 = Raise e1 -> caught e1 = true ->
  glom result spec0 = Raise e0 -> caught e0 = true ->
  delta_below limit spec1 spec0 absolute_value name result = Raise e0.
Proof. apply delta_below_both_missing. Qed.

(** X7.  Missing data.  When exactly one extraction fails with an error
    that the predicate catches and the other one yields a value that is not
    [None], the predicate returns [None]; when both fail so, it raises the
    error of the second extraction. *)
Theorem delta_below_missing_data limit spec1 spec0 absolute_value name result :
  (forall e v0,
      glom result spec1 = Raise e -> caught e = true ->
      glom result spec0 = Ok v0 -> v0 <> VNone ->
      delta_below limit spec1 spec0 absolute_value name result = Ok VNone)
  /\ (forall v1 e,
         glom result spec1 = Ok v1 -> v1 <> VNone ->
         glom result spec0 = Raise e -> caught e = true ->
         delta_below limit spec1 spec0 absolute_value name result = Ok VNone)
  /\ (forall e1 e0,
         glom result spec1 = Raise e1 -> caught e1 = true ->
         glom result spec0 = Raise e0 -> caught e0 = true ->
         delta_below limit spec1 spec0 absolute_value name result = Raise e0).
Proof.
  split; [| split].
  - intros e v0 H1 Hc H0 Hv.
    rewrite (delta_below_first_missing _ _ _ _ _ _ _ _ H1 Hc H0).
    rewrite (is_None_false _ Hv). reflexivity.
  - intros v1 e H1 Hv H0 Hc.
    rewrite (delta_below_second_missing _ _ _ _ _ _ _ _ H1 H0 Hc).
    rewrite (is_None_false _ Hv). reflexivity.
  - intros e1 e0. apply delta_below_both_missing.
Qed.

(** C8.  A spec that resolves to [None] counts as missing data: with [None]
    on one side and a number on the other the predicate returns [None]; with
    [None] on both sides no error was captured, and the subtraction raises
    [TypeError]. *)
Theorem delta_below_None_values limit spec1 spec0 absolute_value name result :
  (forall x,
      glom result spec1 = Ok VNone -> glom result spec0 = Ok (VFloat x) ->
      delta_below limit spec1 spec0 absolute_value name result = Ok VNone)
  /\ (forall x,
         glom result spec1 = Ok (VFloat x) -> glom result spec0 = Ok VNone ->
         delta_below limit spec1 spec0 absolute_value name result = Ok VNone)
  /\ (glom result spec1 = Ok VNone -> glom result spec0 = Ok VNone ->
      delta_below limit spec1 spec0 absolute_value name result
      = Raise (Exn TypeError
                 "unsupported operand type(s) for -: 'NoneType' and 'NoneType'")).
Proof.
  split; [| split].
  - intros x H1 H0. rewrite (delta_below_extracted _ _ _ _ _ _ _ _ H1 H0). reflexivity.
  - intros x H1 H0. rewrite (delta_below_extracted _ _ _ _ _ _ _ _ H1 H0). reflexivity.
  - intros H1 H0. rewrite (delta_below_extracted _ _ _ _ _ _ _ _ H1 H0). reflexivity.
Qed.

(** C9.  The limit is converted when the predicate is called.  With a string
    [s] that [float] does not parse, the predicates are built all the same,
    and a call raises [ValueError] only when it gets as far as the
    comparison: [value_below] after a successful extraction (a failed one
    raises its own error), [delta_below] after two extracted numbers (with
    one value missing it returns [None]). *)
Theorem limit_converted_on_call (s : string) spec spec1 spec0 absolute_value name result :
  float_of_str s = None ->
  let err := Exn ValueError ("could not convert string to float: '" ++ s ++ "'") in
  (forall v, glom result spec = Ok v ->
             value_below (LStr s) spec name result = Raise err)
  /\ (forall e, glom result spec = Raise e ->
                value_below (LStr s) spec name result = Raise e)
  /\ (forall x1 x0,
         glom result spec1 = Ok (VFloat x1) -> glom result spec0 = Ok (VFloat x0) ->
         delta_below (LStr s) spec1 spec0 absolute_value name result = Raise err)
  /\ (forall x1 e,
         glom result spec1 = Ok (VFloat x1) ->
         glom result spec0 = Raise e -> caught e = true ->
         delta_below (LStr s) spec1 spec0 absolute_value name result = Ok VNone).
Proof.
  intros Hs err. split; [| split; [| split]].
  - intros v Hv. unfold value_below. rewrite Hv. cbn [bind float_of_limit].
    rewrite Hs. reflexivity.
  - intros e He. unfold value_below. rewrite He. reflexivity.
  - intros x1 x0 H1 H0. rewrite (delta_below_extracted _ _ _ _ _ _ _ _ H1 H0).
    cbn [is_None xorb]. unfold compare_delta. cbn [py_sub bind].
    destruct absolute_value; cbn [py_abs bind float_of_limit]; rewrite Hs; reflexivity.
  - intros x1 e H1 H0 Hc.
    rewrite (delta_below_second_missing _ _ _ _ _ _ _ _ H1 H0 Hc). reflexivity.
Qed.

End PredicateProperties.

(** ** Indexing from the end *)

Lemma py_index_last {A : Type} (l : list A) (a : A) :
  py_index (l ++ [a])%list (-1) = Some a.
Proof.
  unfold py_index. rewrite length_app. cbn [List.length Z.ltb Z.compare].
  replace (-1 + Z.of_nat (List.length l + 1)) with (Z.of_nat (List.length l)) by lia.
  rewrite Nat2Z.id.
  replace (0 <=? Z.of_nat (List.length l)) with true by (symmetry; apply Z.leb_le; lia).
  replace (Z.of_nat (List.length l) <? Z.of_nat (List.length l + 1)) with true
    by (symmetry; apply Z.ltb_lt; lia).
  cbn [andb]. rewrite nth_error_app2, Nat.sub_diag by lia. reflexivity.
Qed.

Lemma py_index_last_but_one {A : Type} (l : list A) (a b : A) :
  py_index (l ++ [a; b])%list (-2) = Some a.
Proof.
  unfold py_index. rewrite length_app. cbn [List.length Z.ltb Z.compare].
  replace (-2 + Z.of_nat (List.length l + 2)) with (Z.of_nat (List.length l)) by lia.
  rewrite Nat2Z.id.
  replace (0 <=? Z.of_nat (List.length l)) with true by (symmetry; apply Z.leb_le; lia).
  replace (Z.of_nat (List.length l) <? Z.of_nat (List.length l + 2)) with true
    by (symmetry; apply Z.ltb_lt; lia).
  cbn [andb]. rewrite nth_error_app2, Nat.sub_diag by lia. reflexivity.
Qed.

Lemma info_vals_last l prev cur :
  glom {| info_vals := (l ++ [prev; cur])%list |} (info_vals_T (-1)) = Ok cur.
Proof.
  unfold glom, info_vals_T; cbn [resolve info_vals].
  change (l ++ [prev; cur])%list with (l ++ [prev] ++ [cur])%list.
  rewrite app_assoc, py_index_last. reflexivity.
Qed.

Lemma info_vals_last_but_one l prev cur :
  glom {| info_vals := (l ++ [prev; cur])%list |} (info_vals_T (-2)) = Ok prev.
Proof.
  unfold glom, info_vals_T; cbn [resolve info_vals].
  rewrite py_index_last_but_one. reflexivity.
Qed.

(** ** The monotonicity checks *)

Section MonotonicProperties.

Context `{Builtins}.

(** What [check_monotonic_error] computes on a series that ends with the
    numbers [prev] and [cur]: it fires when [prev - cur < 0]. *)
Lemma check_monotonic_error_last_two l prev cur :
  check_monotonic_error {| info_vals := (l ++ [VFloat prev; VFloat cur])%list |}
  = if (prev - cur <? 0)%float
    then Ok (VStr "Loss of monotonic convergence; error decrease < 0")
    else Ok VNone.
Proof.
  unfold check_monotonic_error, _monotonic_convergence.
  rewrite (delta_below_extracted _ _ _ _ _ _ _ _
             (info_vals_last_but_one l _ _) (info_vals_last l _ _)).
  reflexivity.
Qed.

(** What [check_monotonic_fidelity] computes on a series that ends with the
    numbers [prev] and [cur]: it fires when [cur - prev < 0]. *)
Lemma check_monotonic_fidelity_last_two l prev cur :
  check_monotonic_fidelity {| info_vals := (l ++ [VFloat prev; VFloat cur])%list |}
  = if (cur - prev <? 0)%float
    then Ok (VStr "Loss of monotonic convergence; fidelity increase < 0")
    else Ok VNone.
Proof.
  unfold check_monotonic_fidelity, _monotonic_fidelity.
  rewrite (delta_below_extracted _ _ _ _ _ _ _ _
             (info_vals_last l _ _) (info_vals_last_but_one l _ _)).
  reflexivity.
Qed.

(** C2, at series whose last two values are equal, such as [[0.5, 0.5]]:
    the last value is not smaller than the one before, and
    [check_monotonic_error] returns [None] (the decrease is not below the
    limit [0]). *)
Theorem check_monotonic_error_equal_values :
  check_monotonic_error {| info_vals := [VFloat 0.5; VFloat 0.5] |} = Ok VNone
  /\ (forall l x,
         check_monotonic_error {| info_vals := (l ++ [VFloat x; VFloat x])%list |}
         = Ok VNone).
Proof.
  split; [reflexivity |].
  intros l x. rewrite check_monotonic_error_last_two, sub_diag_not_negative.
  reflexivity.
Qed.

(** C7, at series whose last two values are equal, such as [[0.5, 0.5]]:
    the last value is not larger than the one before, and
    [check_monotonic_fidelity] returns [None]. *)
Theorem check_monotonic_fidelity_equal_values :
  check_monotonic_fidelity {| info_vals := [VFloat 0.5; VFloat 0.5] |} = Ok VNone
  /\ (forall l x,
         check_monotonic_fidelity {| info_vals := (l ++ [VFloat x; VFloat x])%list |}
         = Ok VNone).
Proof.
  split; [reflexivity |].
  intros l x. rewrite check_monotonic_fidelity_last_two, sub_diag_not_negative.
  reflexivity.
Qed.

End MonotonicProperties.

(** * The statements at concrete records *)

(** ** [Or] *)

(** [Or(A, B, C)] with [A] returning [None], [B] firing and [C] raising:
    [B]'s message comes back, and the call log is [[0; 1]]. *)
Lemma Or_first_truthy_witness :
  let A : predicate unit := pure (fun _ => Ok VNone) in
  let B : predicate unit := pure (fun _ => Ok (VStr "B fired")) in
  let C : predicate unit := pure (fun _ => Raise (Exn (OtherError "RuntimeError") "C was called")) in
  let result := {| info_vals := [] |} in
  Or [A; B; C] result tt = (Ok (VStr "B fired"), tt)
  /\ Or (log_calls 0 [A; B; C]) result (tt, []) = (Ok (VStr "B fired"), (tt, [0; 1]%nat))
  /\ all_falsy result [A; A] tt tt
  /\ Or (log_calls 0 [A; A]) result (tt, []) = (Ok VNone, (tt, [0; 1]%nat)).
Proof.
  intros A B C result.
  assert (HA : all_falsy result [A] tt tt).
  { econstructor; [reflexivity | reflexivity | constructor]. }
  assert (HAA : all_falsy result [A; A] tt tt).
  { econstructor; [reflexivity | reflexivity | exact HA]. }
  destruct (proj1 (Or_first_truthy [A; B; C] result tt)
              [A] B [C] tt tt (VStr "B fired") eq_refl HA eq_refl eq_refl)
    as [Hret Hlog].
  split; [exact Hret |]. split; [exact Hlog |]. split; [exact HAA |].
  exact (proj2 (proj2 (Or_first_truthy [A; A] result tt)) tt HAA).
Defined.

(** ** [value_below] *)

Lemma value_below_threshold_witness :
  let result := {| info_vals := [VFloat 1e-4; VFloat 9e-5] |} in
  let spec := lambda_info_vals (-1) in
  glom result spec = Ok (VFloat 9e-5)
  /\ float_of_limit (H := doc_builtins) (LStr "1e-4") = Ok 1e-4%float
  /\ value_below (H := doc_builtins) (LStr "1e-4") spec (Some "J_T") result
     = Ok (VStr "J_T < 1e-4").
Proof.
  intros result spec.
  split; [reflexivity |]. split; [reflexivity |].
  apply (proj1 (proj2 (value_below_threshold (H := doc_builtins)
                         (LStr "1e-4") spec (Some "J_T") result
                         9e-5%float 1e-4%float eq_refl eq_refl))).
  reflexivity.
Defined.

(** ** [delta_below] *)

Lemma delta_below_compares_witness :
  let result := {| info_vals := [VFloat 1e-6; VFloat 1e-7] |} in
  glom result (info_vals_T (-1)) = Ok (VFloat 1e-7)
  /\ glom result (info_vals_T (-2)) = Ok (VFloat 1e-6)
  /\ float_of_limit (H := doc_builtins) (LStr "1e-4") = Ok 1e-4%float
  /\ delta_below (H := doc_builtins) (LStr "1e-4")
       (info_vals_T (-1)) (info_vals_T (-2)) true (Some "DJ_T") result
     = Ok (VStr "DJ_T < 1e-4").
Proof.
  intros result.
  split; [reflexivity |]. split; [reflexivity |]. split; [reflexivity |].
  apply (proj2 (delta_below_compares (H := doc_builtins) (LStr "1e-4")
                  (info_vals_T (-1)) (info_vals_T (-2)) true (Some "DJ_T") result
                  1e-7%float 1e-6%float 1e-4%float eq_refl eq_refl eq_refl)).
  reflexivity.
Defined.

Lemma delta_below_raises_last_witness :
  let result := {| info_vals := [] |} in
  let e1 := Exn IndexError "list index out of range" in
  let e0 :=
    Exn PathAccessError
      "could not access -2, got error: IndexError('list index out of range')" in
  glom result (lambda_info_vals (-1)) = Raise e1
  /\ caught e1 = true
  /\ glom result (info_vals_T (-2)) = Raise e0
  /\ caught e0 = true
  /\ delta_below (H := doc_builtins) (LStr "1e-4")
       (lambda_info_vals (-1)) (info_vals_T (-2)) true None result
     = Raise e0.
Proof.
  intros result e1 e0.
  split; [reflexivity |]. split; [reflexivity |].
  split; [reflexivity |]. split; [reflexivity |].
  exact (delta_below_raises_last (H := doc_builtins) (LStr "1e-4")
           (lambda_info_vals (-1)) (info_vals_T (-2)) true None result
           e1 e0 eq_refl eq_refl eq_refl eq_refl).
Defined.

(** C1, at the series [[None]]: only the extraction by [spec0] fails, with
    an error that the predicate catches, and the predicate raises that error
    instead of returning [None]; the [None] that [spec1] extracted is taken
    for a missing value. *)
Lemma delta_below_one_failure_raises :
  let result := {| info_vals := [VNone] |} in
  let e :=
    Exn PathAccessError
      "could not access -2, got error: IndexError('list index out of range')" in
  let check :=
    delta_below (H := doc_builtins) (LStr "1e-4")
      (info_vals_T (-1)) (info_vals_T (-2)) true None in
  glom result (info_vals_T (-1)) = Ok VNone
  /\ glom result (info_vals_T (-2)) = Raise e
  /\ caught e = true
  /\ check result = Raise e
  /\ check result <> Ok VNone.
Proof.
  intros result e check.
  split; [reflexivity |]. split; [reflexivity |]. split; [reflexivity |].
  split; [reflexivity |]. discriminate.
Qed.

Lemma delta_below_missing_data_witness :
  let check :=
    delta_below (H := doc_builtins) (LStr "1e-4")
      (info_vals_T (-1)) (info_vals_T (-2)) true None in
  let check' :=
    delta_below (H := doc_builtins) (LStr "1e-4")
      (info_vals_T (-2)) (info_vals_T (-1)) true None in
  let e :=
    Exn PathAccessError
      "could not access -2, got error: IndexError('list index out of range')" in
  let e' :=
    Exn PathAccessError
      "could not access -1, got error: IndexError('list index out of range')" in
  check {| info_vals := [VFloat 0.9] |} = Ok VNone
  /\ check' {| info_vals := [VFloat 0.9] |} = Ok VNone
  /\ check {| info_vals := [] |} = Raise e
  /\ check' {| info_vals := [] |} = Raise e'.
Proof.
  intros check check' e e'.
  split; [| split; [| split]].
  - exact (proj1 (proj2 (delta_below_missing_data (H := doc_builtins) (LStr "1e-4")
             (info_vals_T (-1)) (info_vals_T (-2)) true None
             {| info_vals := [VFloat 0.9] |}))
             (VFloat 0.9) e eq_refl ltac:(discriminate) eq_refl eq_refl).
  - exact (proj1 (delta_below_missing_data (H := doc_builtins) (LStr "1e-4")
             (info_vals_T (-2)) (info_vals_T (-1)) true None
             {| info_vals := [VFloat 0.9] |})
             e (VFloat 0.9) eq_refl eq_refl eq_refl ltac:(discriminate)).
  - exact (proj2 (proj2 (delta_below_missing_data (H := doc_builtins) (LStr "1e-4")
             (info_vals_T (-1)) (info_vals_T (-2)) true None
             {| info_vals := [] |}))
             e' e eq_refl eq_refl eq_refl eq_refl).
  - exact (proj2 (proj2 (delta_below_missing_data (H := doc_builtins) (LStr "1e-4")
             (info_vals_T (-2)) (info_vals_T (-1)) true None
             {| info_vals := [] |}))
             e e' eq_refl eq_refl eq_refl eq_refl).
Defined.

Lemma delta_below_None_values_witness :
  let check :=
    delta_below (H := doc_builtins) (LStr "1e-4")
      (info_vals_T (-1)) (info_vals_T (-2)) true None in
  check {| info_vals := [VFloat 0.9; VNone] |} = Ok VNone
  /\ check {| info_vals := [VNone; VFloat 0.9] |} = Ok VNone
  /\ check {| info_vals := [VNone; VNone] |}
     = Raise (Exn TypeError
                "unsupported operand type(s) for -: 'NoneType' and 'NoneType'").
Proof.
  intros check.
  split; [| split].
  - exact (proj1 (delta_below_None_values (H := doc_builtins) (LStr "1e-4")
             (info_vals_T (-1)) (info_vals_T (-2)) true None
             {| info_vals := [VFloat 0.9; VNone] |})
             0.9%float eq_refl eq_refl).
  - exact (proj1 (proj2 (delta_below_None_values (H := doc_builtins) (LStr "1e-4")
             (info_vals_T (-1)) (info_vals_T (-2)) true None
             {| info_vals := [VNone; VFloat 0.9] |}))
             0.9%float eq_refl eq_refl).
  - exact (proj2 (proj2 (delta_below_None_values (H := doc_builtins) (LStr "1e-4")
             (info_vals_T (-1)) (info_vals_T (-2)) true None
             {| info_vals := [VNone; VNone] |}))
             eq_refl eq_refl).
Defined.

(** ** The limit *)

Lemma limit_converted_on_call_witness :
  let err := Exn ValueError "could not convert string to float: 'abc'" in
  let e :=
    Exn PathAccessError
      "could not access -2, got error: IndexError('list index out of range')" in
  let below := value_below (H := doc_builtins) (LStr "abc") (info_vals_T (-1)) None in
  let delta :=
    delta_below (H := doc_builtins) (LStr "abc")
      (info_vals_T (-1)) (info_vals_T (-2)) true None in
  float_of_str (Builtins := doc_builtins) "abc" = None
  /\ below {| info_vals := [VFloat 0.9] |} = Raise err
  /\ below {| info_vals := [] |}
     = Raise (Exn PathAccessError
                "could not access -1, got error: IndexError('list index out of range')")
  /\ delta {| info_vals := [VFloat 0.9; VFloat 0.1] |} = Raise err
  /\ delta {| info_vals := [VFloat 0.9] |} = Ok VNone.
Proof.
  intros err e below delta.
  split; [reflexivity |].
  split; [| split; [| split]].
  - exact (proj1 (limit_converted_on_call (H := doc_builtins) "abc"
             (info_vals_T (-1)) (info_vals_T (-1)) (info_vals_T (-2)) true None
             {| info_vals := [VFloat 0.9] |} eq_refl)
             (VFloat 0.9) eq_refl).
  - exact (proj1 (proj2 (limit_converted_on_call (H := doc_builtins) "abc"
             (info_vals_T (-1)) (info_vals_T (-1)) (info_vals_T (-2)) true None
             {| info_vals := [] |} eq_refl))
             _ eq_refl).
  - exact (proj1 (proj2 (proj2 (limit_converted_on_call (H := doc_builtins) "abc"
             (info_vals_T (-1)) (info_vals_T (-1)) (info_vals_T (-2)) true None
             {| info_vals := [VFloat 0.9; VFloat 0.1] |} eq_refl)))
             0.1%float 0.9%float eq_refl eq_refl).
  - exact (proj2 (proj2 (proj2 (limit_converted_on_call (H := doc_builtins) "abc"
             (info_vals_T (-1)) (info_vals_T (-1)) (info_vals_T (-2)) true None
             {| info_vals := [VFloat 0.9] |} eq_refl)))
             0.9%float e eq_refl eq_refl eq_refl).
Defined.

(** * The examples of the docstrings and of the specification *)

Example float_of_int_0 : float_of_int 0 = Ok 0%float.
Proof. reflexivity. Qed.

Example float_of_int_rounds : float_of_int (2 ^ 53 + 1) = Ok 9007199254740992%float.
Proof. vm_compute. reflexivity. Qed.

Example float_of_int_overflow :
  float_of_int (2 ^ 1024)
  = Raise (Exn OverflowError "int too large to convert to float").
Proof. vm_compute. reflexivity. Qed.

Example str_of_int_examples : str_of_int (-12) = "-12" /\ str_of_int 0 = "0".
Proof. split; reflexivity. Qed.

Example py_index_examples :
  py_index [1; 2; 3] (-1) = Some 3
  /\ py_index [1; 2; 3] (-3) = Some 1
  /\ py_index [1; 2; 3] (-4) = None
  /\ py_index [1; 2; 3] 2 = Some 3
  /\ py_index [1; 2; 3] 3 = None.
Proof. repeat split; reflexivity. Qed.

(** The docstring of [value_below]. *)
Example value_below_doc :
  let check_convergence :=
    value_below (H := doc_builtins) (LStr "1e-4") (lambda_info_vals (-1)) (Some "J_T") in
  check_convergence {| info_vals := [VFloat 1e-4] |} = Ok VNone
  /\ check_convergence {| info_vals := [VFloat 1e-4; VFloat 9e-5] |}
     = Ok (VStr "J_T < 1e-4").
Proof. split; reflexivity. Qed.

(** Without data [value_below] raises the extractor's error. *)
Example value_below_empty :
  value_below (H := doc_builtins) (LStr "1e-4") (lambda_info_vals (-1)) (Some "J_T")
    {| info_vals := [] |}
  = Raise (Exn IndexError "list index out of range").
Proof. reflexivity. Qed.

(** The docstring of [delta_below]: the predicate fires at the last value
    only. *)
Example delta_below_doc :
  let check_convergence :=
    delta_below (H := doc_builtins) (LStr "1e-4")
      (info_vals_T (-1)) (info_vals_T (-2)) true (Some "DJ_T") in
  let series := [VFloat 9e-1; VFloat 1e-1; VFloat 4e-4; VFloat 2e-4;
                 VFloat 1e-6; VFloat 1e-7] in
  map (fun n => check_convergence {| info_vals := firstn n series |})
    [1; 2; 3; 4; 5; 6]%nat
  = [Ok VNone; Ok VNone; Ok VNone; Ok VNone; Ok VNone; Ok (VStr "DJ_T < 1e-4")].
Proof. reflexivity. Qed.

(** The default name of [delta_below]. *)
Example delta_below_default_name :
  delta_below (H := doc_builtins) (LFloat 1e-4)
    (info_vals_T (-1)) (info_vals_T (-2)) true None
    {| info_vals := [VFloat 1e-6; VFloat 1e-7] |}
  = Ok (VStr (Delta ++ "(('info_vals', T[-1]),('info_vals', T[-2])) < 0.0001")).
Proof. reflexivity. Qed.

(** The docstring of [check_monotonic_error]. *)
Example check_monotonic_error_doc :
  check_monotonic_error (H := doc_builtins) {| info_vals := [VFloat 9e-1] |} = Ok VNone
  /\ check_monotonic_error (H := doc_builtins)
       {| info_vals := [VFloat 9e-1; VFloat 1e-1] |} = Ok VNone
  /\ check_monotonic_error (H := doc_builtins)
       {| info_vals := [VFloat 9e-1; VFloat 1e-1; VFloat 2e-1] |}
     = Ok (VStr "Loss of monotonic convergence; error decrease < 0").
Proof. repeat split; reflexivity. Qed.

(** The docstring of [check_monotonic_fidelity]. *)
Example check_monotonic_fidelity_doc :
  check_monotonic_fidelity (H := doc_builtins) {| info_vals := [VFloat 0.0] |} = Ok VNone
  /\ check_monotonic_fidelity (H := doc_builtins)
       {| info_vals := [VFloat 0.0; VFloat 0.2] |} = Ok VNone
  /\ check_monotonic_fidelity (H := doc_builtins)
       {| info_vals := [VFloat 0.0; VFloat 0.2; VFloat 0.15] |}
     = Ok (VStr "Loss of monotonic convergence; fidelity increase < 0").
Proof. repeat split; reflexivity. Qed.

(** [Or(A, B)] where [A] fires and [B] would raise: [A]'s message; where [A]
    returns [None] and [B] fires: [B]'s message. *)
Example Or_short_circuit :
  let fires (m : string) : predicate unit := pure (fun _ => Ok (VStr m)) in
  let passes : predicate unit := pure (fun _ => Ok VNone) in
  let raises : predicate unit :=
    pure (fun _ => Raise (Exn (OtherError "RuntimeError") "called")) in
  Or [fires "A"; raises] {| info_vals := [] |} tt = (Ok (VStr "A"), tt)
  /\ Or [passes; fires "B"] {| info_vals := [] |} tt = (Ok (VStr "B"), tt)
  /\ Or [passes; raises; fires "C"] {| info_vals := [] |} tt
     = (Raise (Exn (OtherError "RuntimeError") "called"), tt).
Proof. repeat split; reflexivity. Qed.

(** * Further properties *)

(** ** Binary64 subtraction and comparison

    The facts below are read off the specification of the primitive
    operations ([SFsub], [SFcompare], [binary_normalize]). *)

Lemma digits2_pos_size (p : positive) : digits2_pos p = Pos.size p.
Proof. induction p; simpl; congruence. Qed.

Lemma digits2_pos_bounds (p : positive) :
  2 ^ (Z.pos (digits2_pos p) - 1) <= Z.pos p < 2 ^ Z.pos (digits2_pos p).
Proof.
  rewrite digits2_pos_size.
  pose proof (Pos.size_gt p) as Hgt. pose proof (Pos.size_le p) as Hle.
  apply Pos2Z.pos_lt_pos in Hgt. apply Pos2Z.pos_le_pos in Hle.
  rewrite Pos2Z.inj_pow in Hgt, Hle. change (Z.pos p~0) with (2 * Z.pos p) in Hle.
  split; [| exact Hgt].
  assert (H2 : 2 ^ Z.pos (Pos.size p) = 2 * 2 ^ (Z.pos (Pos.size p) - 1)).
  { rewrite <- Z.pow_succ_r by lia. f_equal. lia. }
  lia.
Qed.

Lemma shr_1_m (mrs : shr_record) :
  0 <= shr_m mrs -> shr_m (shr_1 mrs) = shr_m mrs / 2.
Proof.
  destruct mrs as [m r s]. cbn [shr_m]. intros Hm. rewrite <- Z.div2_div.
  destruct m as [| [p | p |] | p]; try reflexivity. lia.
Qed.

Lemma iter_pos_shr_1_m (n : positive) :
  forall mrs, 0 <= shr_m mrs ->
              shr_m (iter_pos shr_1 n mrs) = shr_m mrs / 2 ^ Z.pos n.
Proof.
  assert (Hpos : forall mrs, 0 <= shr_m mrs -> 0 <= shr_m (shr_1 mrs)).
  { intros mrs Hm. rewrite shr_1_m by exact Hm. apply Z.div_pos; lia. }
  induction n as [n IH | n IH |]; intros mrs Hm; cbn [iter_pos].
  - assert (H1 := Hpos _ Hm).
    assert (H2 : 0 <= shr_m (iter_pos shr_1 n (shr_1 mrs))).
    { rewrite IH by exact H1. apply Z.div_pos; [exact H1 | apply Z.pow_pos_nonneg; lia]. }
    rewrite IH by exact H2. rewrite IH by exact H1. rewrite shr_1_m by exact Hm.
    rewrite !Z.div_div by (try apply Z.pow_pos_nonneg; lia).
    f_equal.
    replace (Z.pos n~1) with (1 + Z.pos n + Z.pos n) by lia.
    rewrite !Z.pow_add_r by lia. rewrite Z.pow_1_r. lia.
  - assert (H2 : 0 <= shr_m (iter_pos shr_1 n mrs)).
    { rewrite IH by exact Hm. apply Z.div_pos; [exact Hm | apply Z.pow_pos_nonneg; lia]. }
    rewrite IH by exact H2. rewrite IH by exact Hm.
    rewrite !Z.div_div by (try apply Z.pow_pos_nonneg; lia).
    f_equal.
    replace (Z.pos n~0) with (Z.pos n + Z.pos n) by lia.
    rewrite !Z.pow_add_r by lia. reflexivity.
  - rewrite shr_1_m by exact Hm. reflexivity.
Qed.

Lemma shr_record_of_loc_m (m : Z) (l : location) : shr_m (shr_record_of_loc m l) = m.
Proof. destruct l as [| []]; reflexivity. Qed.

Lemma shr_fexp_pos (m e : Z) (l : location) :
  0 < m -> -1074 <= e ->
  0 < shr_m (fst (shr_fexp prec emax m e l))
  /\ -1074 <= snd (shr_fexp prec emax m e l).
Proof.
  intros Hm He. destruct m as [| p | p]; try lia.
  unfold shr_fexp, shr. cbn [Zdigits2].
  pose proof (digits2_pos_bounds p) as [Hlo _].
  set (d := Z.pos (digits2_pos p)) in *.
  assert (Hn : fexp prec emax (d + e) - e = Z.max (d - 53) (-1074 - e)).
  { unfold fexp, emin, prec, emax. lia. }
  rewrite Hn.
  destruct (Z.max (d - 53) (-1074 - e)) as [| q | q] eqn:Hq; cbn [fst snd].
  - rewrite shr_record_of_loc_m. lia.
  - rewrite iter_pos_shr_1_m, shr_record_of_loc_m by (rewrite shr_record_of_loc_m; lia).
    split; [| lia].
    apply Z.div_str_pos. split; [apply Z.pow_pos_nonneg; lia |].
    apply Z.le_trans with (2 ^ (d - 1)); [| exact Hlo].
    apply Z.pow_le_mono_r; lia.
  - rewrite shr_record_of_loc_m. lia.
Qed.

Lemma round_nearest_even_pos (m : Z) (l : location) :
  0 < m -> 0 < round_nearest_even m l.
Proof.
  intros Hm. destruct l as [| []]; cbn [round_nearest_even]; try lia.
  destruct (Z.even m); lia.
Qed.

(** Rounding a non-zero number keeps its sign: the result is finite or
    infinite, with the sign given. *)
Lemma binary_round_aux_sign (s : bool) (m e : Z) (l : location) :
  0 < m -> -1074 <= e ->
  (exists m' e', binary_round_aux prec emax s m e l = S754_finite s m' e')
  \/ binary_round_aux prec emax s m e l = S754_infinity s.
Proof.
  intros Hm He. unfold binary_round_aux.
  destruct (shr_fexp_pos m e l Hm He) as [Hm1 He1].
  destruct (shr_fexp prec emax m e l) as [mrs' e']. cbn [fst snd] in Hm1, He1.
  pose proof (round_nearest_even_pos _ (loc_of_shr_record mrs') Hm1) as Hm2.
  destruct (shr_fexp_pos _ e' loc_Exact Hm2 He1) as [Hm3 _].
  destruct (shr_fexp prec emax _ e' loc_Exact) as [mrs'' e'']. cbn [fst] in Hm3.
  destruct (shr_m mrs'') as [| q | q]; try lia.
  destruct (e'' <=? emax - prec); [left; eauto | right; reflexivity].
Qed.

Lemma binary_round_sign (s : bool) (m : positive) (e : Z) :
  -1074 <= e ->
  (exists m' e', binary_round prec emax s m e = S754_finite s m' e')
  \/ binary_round prec emax s m e = S754_infinity s.
Proof.
  intros He. unfold binary_round.
  destruct (shl_align m e _) as [mz ez] eqn:Hal.
  apply binary_round_aux_sign; [lia |].
  unfold shl_align in Hal.
  destruct (fexp prec emax (Z.pos (digits2_pos m) + e) - e) eqn:Hd;
    injection Hal as <- <-; try lia.
  unfold fexp, emin, prec, emax. lia.
Qed.

Lemma binary_round_ltb_zero (s : bool) (m : positive) (e : Z) :
  -1074 <= e ->
  SFltb (binary_round prec emax s m e) (S754_zero false) = s.
Proof.
  intros He. destruct (binary_round_sign s m e He) as [(m' & e' & ->) | ->];
    destruct s; reflexivity.
Qed.

Lemma bounded_facts (m : positive) (e : Z) :
  bounded prec emax m e = true ->
  -1074 <= e /\ Z.pos (digits2_pos m) <= 53
  /\ (-1074 < e -> Z.pos (digits2_pos m) = 53).
Proof.
  unfold bounded, canonical_mantissa, fexp, emin, prec, emax.
  intros Hb. apply andb_true_iff in Hb as [Hc _]. apply Z.eqb_eq in Hc. lia.
Qed.

Lemma shl_align_fst (m : positive) (e ez : Z) :
  ez <= e -> Z.pos (fst (shl_align m e ez)) = Z.pos m * 2 ^ (e - ez).
Proof.
  intros Hle. unfold shl_align.
  destruct (ez - e) as [| d | d] eqn:Hd; cbn [fst]; try lia.
  - replace (e - ez) with 0 by lia. lia.
  - replace (e - ez) with (Z.pos d) by lia.
    change (Pos.iter xO m d) with (shift_pos d m).
    rewrite shift_pos_correct.
    change (Zpower_pos 2 d) with (2 ^ Z.pos d). lia.
Qed.

(** The order of two canonical finite numbers of the same sign, read off
    their mantissas aligned at the smaller exponent. *)
Lemma aligned_compare (mx my : positive) (ex ey : Z) :
  bounded prec emax mx ex = true ->
  bounded prec emax my ey = true ->
  let ez := Z.min ex ey in
  (Z.pos (fst (shl_align mx ex ez)) ?= Z.pos (fst (shl_align my ey ez)))
  = match ex ?= ey with
    | Lt => Lt
    | Gt => Gt
    | Eq => Pos.compare_cont Eq mx my
    end.
Proof.
  intros Hx Hy ez.
  apply bounded_facts in Hx as (Hex & Hdx & Hnx).
  apply bounded_facts in Hy as (Hey & Hdy & Hny).
  pose proof (digits2_pos_bounds mx) as [Hlx Hux].
  pose proof (digits2_pos_bounds my) as [Hly Huy].
  rewrite !shl_align_fst by (subst ez; lia).
  assert (Hmono : forall d, Z.pos d <= 53 -> 2 ^ Z.pos d <= 2 ^ 53).
  { intros d Hd. apply Z.pow_le_mono_r; lia. }
  assert (Hstep : forall k, 1 <= k -> 2 <= 2 ^ k).
  { intros k Hk. change 2 with (2 ^ 1) at 1. apply Z.pow_le_mono_r; lia. }
  destruct (Z.compare_spec ex ey) as [Heq | Hlt | Hgt].
  - subst ey. subst ez. rewrite Z.min_id, Z.sub_diag, !Z.mul_1_r. reflexivity.
  - subst ez. rewrite Z.min_l by lia. rewrite Z.sub_diag, Z.mul_1_r.
    apply Z.compare_lt_iff.
    specialize (Hny ltac:(lia)). rewrite Hny in Hly.
    specialize (Hmono _ Hdx). specialize (Hstep (ey - ex) ltac:(lia)).
    change (2 ^ 53) with (2 * 2 ^ (53 - 1)) in Hmono. nia.
  - subst ez. rewrite Z.min_r by lia. rewrite Z.sub_diag, Z.mul_1_r.
    apply Z.compare_gt_iff.
    specialize (Hnx ltac:(lia)). rewrite Hnx in Hlx.
    specialize (Hmono _ Hdy). specialize (Hstep (ex - ey) ltac:(lia)).
    change (2 ^ 53) with (2 * 2 ^ (53 - 1)) in Hmono. nia.
Qed.

Lemma binary_normalize_ltb_zero (d e : Z) :
  -1074 <= e ->
  SFltb (binary_normalize prec emax d e false) (S754_zero false) = (d <? 0).
Proof.
  intros He. destruct d as [| p | p]; cbn [binary_normalize].
  - reflexivity.
  - apply binary_round_ltb_zero, He.
  - apply binary_round_ltb_zero, He.
Qed.

Lemma SFsub_ltb_zero (x y : spec_float) :
  valid_binary x = true ->
  valid_binary y = true ->
  SFltb (SFsub prec emax x y) (S754_zero false) = SFltb x y.
Proof.
  destruct x as [sx | sx | | sx mx ex], y as [sy | sy | | sy my ey];
    intros Hx Hy;
    try reflexivity;
    try (destruct sx; reflexivity); try (destruct sy; reflexivity);
    try (destruct sx, sy; reflexivity).
  cbn [valid_binary] in Hx, Hy. cbn [SFsub].
  rewrite binary_normalize_ltb_zero
    by (apply bounded_facts in Hx; apply bounded_facts in Hy; lia).
  pose proof (aligned_compare mx my ex ey Hx Hy) as Hcmp. cbv zeta in Hcmp.
  unfold SFltb, SFcompare.
  set (a := Z.pos (fst (shl_align mx ex (Z.min ex ey)))) in *.
  set (b := Z.pos (fst (shl_align my ey (Z.min ex ey)))) in *.
  assert (Ha : 0 < a) by (subst a; lia).
  assert (Hb : 0 < b) by (subst b; lia).
  clearbody a b.
  assert (Hord : match a ?= b with Eq => a = b | Lt => a < b | Gt => b < a end).
  { destruct (Z.compare_spec a b); assumption. }
  destruct sx, sy; cbn [cond_Zopp].
  - destruct (ex ?= ey).
    + rewrite <- Hcmp. destruct (a ?= b); cbn [CompOpp];
        (apply Z.ltb_lt || apply Z.ltb_ge); lia.
    + rewrite Hcmp in Hord. apply Z.ltb_ge. lia.
    + rewrite Hcmp in Hord. apply Z.ltb_lt. lia.
  - apply Z.ltb_lt. lia.
  - apply Z.ltb_ge. lia.
  - destruct (ex ?= ey).
    + rewrite <- Hcmp. destruct (a ?= b);
        (apply Z.ltb_lt || apply Z.ltb_ge); lia.
    + rewrite Hcmp in Hord. apply Z.ltb_lt. lia.
    + rewrite Hcmp in Hord. apply Z.ltb_ge. lia.
Qed.

(** [x - y < 0] exactly when [x < y]. *)
Lemma sub_ltb_zero (x y : float) : (x - y <? 0)%float = (x <? y)%float.
Proof.
  rewrite !ltb_spec, sub_spec.
  change (Prim2SF 0) with (S754_zero false).
  apply SFsub_ltb_zero; apply Prim2SF_valid.
Qed.

Lemma Prim2SF_inj (x y : float) : Prim2SF x = Prim2SF y -> x = y.
Proof.
  intros Heq. rewrite <- (SF2Prim_Prim2SF x), <- (SF2Prim_Prim2SF y), Heq. reflexivity.
Qed.

Lemma SFabs_binary_round (s : bool) (m : positive) (e : Z) :
  SFabs (binary_round prec emax s m e) = SFabs (binary_round prec emax false m e).
Proof.
  unfold binary_round, binary_round_aux.
  destruct (shl_align m e _) as [mz ez].
  destruct (shr_fexp prec emax (Z.pos mz) ez loc_Exact) as [mrs' e'].
  destruct (shr_fexp prec emax _ e' loc_Exact) as [mrs'' e''].
  destruct (shr_m mrs'') as [| p | p]; try reflexivity.
  destruct (e'' <=? emax - prec); reflexivity.
Qed.

Lemma SFabs_binary_normalize_opp (d e : Z) :
  SFabs (binary_normalize prec emax (- d) e false)
  = SFabs (binary_normalize prec emax d e false).
Proof.
  destruct d as [| p | p]; simpl; try reflexivity.
  - apply SFabs_binary_round.
  - symmetry. apply SFabs_binary_round.
Qed.

Lemma SFabs_SFsub_comm (x y : spec_float) :
  SFabs (SFsub prec emax x y) = SFabs (SFsub prec emax y x).
Proof.
  destruct x as [sx | sx | | sx mx ex], y as [sy | sy | | sy my ey];
    try reflexivity;
    try (destruct sx, sy; reflexivity).
  cbn [SFsub]. rewrite (Z.min_comm ey ex).
  rewrite <- SFabs_binary_normalize_opp. f_equal. f_equal. lia.
Qed.

Lemma abs_sub_comm (x y : float) : abs (x - y) = abs (y - x).
Proof.
  apply Prim2SF_inj. rewrite !abs_spec, !sub_spec. apply SFabs_SFsub_comm.
Qed.

Lemma abs_not_below_nonpositive (x lim : float) :
  (lim <=? 0)%float = true -> (abs x <? lim)%float = false.
Proof.
  rewrite leb_spec, ltb_spec, abs_spec.
  change (Prim2SF 0) with (S754_zero false).
  unfold SFleb, SFltb.
  destruct (Prim2SF x) as [sx | sx | | sx mx ex],
           (Prim2SF lim) as [sl | sl | | sl ml el]; simpl;
    try reflexivity; try discriminate;
    try (destruct sl; (reflexivity || discriminate)).
Qed.

(** ** [Or]: errors, results and composition *)

Lemma Or_result_truthy {W : Type} (funcs : list (predicate W)) result :
  forall w w' msg,
    Or funcs result w = (Ok msg, w') -> msg = VNone \/ truthy msg = true.
Proof.
  induction funcs as [| func funcs IH]; cbn [Or]; intros w w' msg HOr.
  - injection HOr as <- _. left; reflexivity.
  - destruct (func result w) as [[m | e] w1]; [| discriminate].
    destruct (truthy m) eqn:Hm.
    + injection HOr as <- _. right; exact Hm.
    + eapply IH; eassumption.
Qed.

Lemma Or_app {W : Type} (funcs1 funcs2 : list (predicate W)) result :
  forall w,
    Or (funcs1 ++ funcs2)%list result w
    = match Or funcs1 result w with
      | (Ok VNone, w') => Or funcs2 result w'
      | res => res
      end.
Proof.
  induction funcs1 as [| func funcs1 IH]; intros w; cbn [Or app].
  - reflexivity.
  - destruct (func result w) as [[m | e] w1]; [| reflexivity].
    destruct (truthy m) eqn:Hm.
    + destruct m; try reflexivity. discriminate.
    + apply IH.
Qed.

(** X1.  When [Or] returns a message, one of its predicates returned it: the
    predicates before that one were called in order and returned falsy
    results, and the message is truthy.  [Or] makes no message of its own. *)
Theorem Or_message_from_member {W : Type} (funcs : list (predicate W)) result w w' msg :
  Or funcs result w = (Ok msg, w') ->
  msg <> VNone ->
  truthy msg = true
  /\ exists funcs1 func funcs2 w1,
      funcs = (funcs1 ++ func :: funcs2)%list
      /\ all_falsy result funcs1 w w1
      /\ func result w1 = (Ok msg, w').
Proof.
  intros HOr Hmsg. split.
  { destruct (Or_result_truthy _ _ _ _ _ HOr); [contradiction | assumption]. }
  revert w HOr.
  induction funcs as [| func funcs IH]; cbn [Or]; intros w HOr.
  - injection HOr as <- _. contradiction.
  - destruct (func result w) as [[m | e] w1] eqn:Hcall; [| discriminate].
    destruct (truthy m) eqn:Hm.
    + injection HOr as -> ->.
      exists [], func, funcs, w. repeat split; [constructor | exact Hcall].
    + destruct (IH _ HOr) as (funcs1 & func' & funcs2 & w2 & -> & Hall & Hcall').
      exists (func :: funcs1), func', funcs2, w2. repeat split.
      * econstructor; eassumption.
      * exact Hcall'.
Qed.

(** X2.  [Or] raises exactly when one of its predicates raises after the ones
    before it returned falsy results; the error is that predicate's own, and
    no later predicate is called (the world is the one that call left). *)
Theorem Or_raises_iff {W : Type} (funcs : list (predicate W)) result w w' e :
  Or funcs result w = (Raise e, w')
  <-> exists funcs1 func funcs2 w1,
      funcs = (funcs1 ++ func :: funcs2)%list
      /\ all_falsy result funcs1 w w1
      /\ func result w1 = (Raise e, w').
Proof.
  split.
  - revert w.
    induction funcs as [| func funcs IH]; cbn [Or]; intros w HOr; [discriminate |].
    destruct (func result w) as [[m | e1] w1] eqn:Hcall.
    + destruct (truthy m) eqn:Hm; [discriminate |].
      destruct (IH _ HOr) as (funcs1 & func' & funcs2 & w2 & -> & Hall & Hcall').
      exists (func :: funcs1), func', funcs2, w2. repeat split.
      * econstructor; eassumption.
      * exact Hcall'.
    + injection HOr as -> ->.
      exists [], func, funcs, w. repeat split; [constructor | exact Hcall].
  - intros (funcs1 & func & funcs2 & w1 & -> & Hall & Hcall).
    rewrite Or_app, (Or_all_falsy _ _ _ _ Hall). cbn [Or]. rewrite Hcall. reflexivity.
Qed.

(** X3.  [Or] over a concatenation: the second list is consulted, from the world
    the first list left, exactly when [Or] over the first list returns
    [None]; a message or an error of the first list is the result. *)
Theorem Or_concat {W : Type} (funcs1 funcs2 : list (predicate W)) result w :
  Or (funcs1 ++ funcs2)%list result w
  = match Or funcs1 result w with
    | (Ok VNone, w') => Or funcs2 result w'
    | res => res
    end.
Proof. apply Or_app. Qed.

(** X4.  Nesting is flattening: an [Or] used as a predicate of another [Or]
    behaves as its predicates listed in place. *)
Theorem Or_nested {W : Type} (funcs1 funcs2 funcs3 : list (predicate W)) result w :
  Or (funcs1 ++ Or funcs2 :: funcs3)%list result w
  = Or (funcs1 ++ funcs2 ++ funcs3)%list result w.
Proof.
  rewrite !Or_app. destruct (Or funcs1 result w) as [[[| x | s] | e] w1]; try reflexivity.
  cbn [Or]. rewrite Or_app.
  destruct (Or funcs2 result w1) as [[m | e] w2] eqn:H2; [| reflexivity].
  destruct (Or_result_truthy _ _ _ _ _ H2) as [-> | Hm].
  - reflexivity.
  - rewrite Hm. destruct m; try reflexivity. discriminate.
Qed.

(** ** The constructed predicates: what they return and raise *)

Lemma ltb_asym (x y : float) : (x <? y)%float = true -> (y <? x)%float = false.
Proof.
  rewrite !ltb_spec. unfold SFltb.
  rewrite (SFcompare_antisym (Prim2SF x) (Prim2SF y)).
  destruct (SFcompare (Prim2SF x) (Prim2SF y)) as [[ | | ] |]; simpl;
    intros; congruence.
Qed.

Section ReturnsAndRaises.

Context `{Builtins}.
Implicit Types (limit : limit_t) (spec : path_spec) (absolute_value : bool)
  (name : option string) (result : Result).

(** The message is never the empty string. *)
Lemma message_truthy (n : string) limit : truthy (VStr (message n limit)) = true.
Proof. unfold message. destruct n; reflexivity. Qed.

Lemma delta_below_Ok_inv limit spec1 spec0 absolute_value name result v :
  delta_below limit spec1 spec0 absolute_value name result = Ok v ->
  v <> VNone ->
  exists x1 x0 lim,
    glom result spec1 = Ok (VFloat x1)
    /\ glom result spec0 = Ok (VFloat x0)
    /\ float_of_limit limit = Ok lim
    /\ ((if absolute_value then abs (x1 - x0) else x1 - x0) <? lim)%float = true
    /\ v = VStr (message (delta_name spec1 spec0 name) limit).
Proof.
  intros Hret Hv.
  destruct (glom result spec1) as [v1 | e1] eqn:H1.
  - destruct (glom result spec0) as [v0 | e0] eqn:H0.
    + rewrite (delta_below_extracted _ _ _ _ _ _ _ _ H1 H0) in Hret.
      destruct v1 as [| x1 | s1], v0 as [| x0 | s0]; cbn in Hret;
        try discriminate; try (injection Hret as <-; contradiction).
      unfold compare_delta in Hret. cbn [py_sub bind] in Hret.
      exists x1, x0.
      destruct absolute_value; cbn [py_abs bind] in Hret;
        (destruct (float_of_limit limit) as [lim | e]; [| discriminate]);
        cbn [bind py_lt] in Hret; exists lim;
        (match type of Hret with
         | (if ?b then _ else _) = _ => destruct b eqn:Hb
         end; injection Hret as <-; [| contradiction]);
        repeat split; reflexivity.
    + destruct (caught e0) eqn:Hc.
      * rewrite (delta_below_second_missing _ _ _ _ _ _ _ _ H1 H0 Hc) in Hret.
        destruct (is_None v1); [discriminate |].
        injection Hret as <-. contradiction.
      * unfold delta_below in Hret. rewrite (try_glom_Ok _ _ _ _ H1) in Hret.
        cbn [bind] in Hret. unfold try_glom in Hret. rewrite H0, Hc in Hret.
        discriminate.
  - destruct (caught e1) eqn:Hc1.
    + destruct (glom result spec0) as [v0 | e0] eqn:H0.
      * rewrite (delta_below_first_missing _ _ _ _ _ _ _ _ H1 Hc1 H0) in Hret.
        destruct (is_None v0); [discriminate |].
        injection Hret as <-. contradiction.
      * unfold delta_below in Hret. rewrite (try_glom_caught _ _ _ _ H1 Hc1) in Hret.
        cbn [bind] in Hret. unfold try_glom in Hret. rewrite H0 in Hret.
        destruct (caught e0); discriminate.
    + unfold delta_below, try_glom in Hret. rewrite H1, Hc1 in Hret. discriminate.
Qed.

(** X5.  [value_below] returns only after the extraction returned and the
    limit converted.  What it returns is [None] or the message, which is
    truthy; for an extracted number [x] it is the message exactly when [x] is
    below the limit. *)
Theorem value_below_returns limit spec name result v :
  value_below limit spec name result = Ok v ->
  exists v1 lim,
    glom result spec = Ok v1
    /\ float_of_limit limit = Ok lim
    /\ (v = VNone
        \/ (v = VStr (message (value_name spec name) limit) /\ truthy v = true))
    /\ (forall x,
           v1 = VFloat x ->
           v = if (x <? lim)%float
               then VStr (message (value_name spec name) limit)
               else VNone).
Proof.
  unfold value_below. intros Hret.
  destruct (glom result spec) as [v1 | e]; [| discriminate]. cbn [bind] in Hret.
  destruct (float_of_limit limit) as [lim | e]; [| discriminate]. cbn [bind] in Hret.
  exists v1, lim. split; [reflexivity |]. split; [reflexivity |].
  destruct v1 as [| x | s]; try discriminate. cbn [py_lt bind] in Hret.
  split.
  - destruct (x <? lim)%float; injection Hret as <-.
    + right. split; [reflexivity | apply message_truthy].
    + left; reflexivity.
  - intros x' Hx. injection Hx as <-.
    destruct (x <? lim)%float; congruence.
Qed.

(** X6.  [delta_below] fires only after both extractions returned values
    other than [None] and the limit converted; what it returns is then the
    message, which is truthy, and for two extracted numbers their difference
    (its absolute value, if asked for) is below the limit.  In every other
    case in which it returns, it returns [None]. *)
Theorem delta_below_fires_only limit spec1 spec0 absolute_value name result v :
  delta_below limit spec1 spec0 absolute_value name result = Ok v ->
  v <> VNone ->
  v = VStr (message (delta_name spec1 spec0 name) limit)
  /\ truthy v = true
  /\ exists v1 v0 lim,
      glom result spec1 = Ok v1
      /\ glom result spec0 = Ok v0
      /\ v1 <> VNone /\ v0 <> VNone
      /\ float_of_limit limit = Ok lim
      /\ (forall x1 x0,
             v1 = VFloat x1 -> v0 = VFloat x0 ->
             ((if absolute_value then abs (x1 - x0) else x1 - x0) <? lim)%float
             = true).
Proof.
  intros Hret Hv.
  destruct (delta_below_Ok_inv _ _ _ _ _ _ _ Hret Hv)
    as (x1 & x0 & lim & H1 & H0 & Hlim & Hlt & ->).
  split; [reflexivity |]. split; [apply message_truthy |].
  exists (VFloat x1), (VFloat x0), lim.
  repeat split; try assumption; try discriminate.
  intros y1 y0 Hy1 Hy0. injection Hy1 as <-. injection Hy0 as <-. exact Hlt.
Qed.

(** X8.  With [absolute_value] set and a given name the two specs can be
    exchanged: the predicate gives the same result when both specs return
    [None] or numbers, and when one of them fails with a caught error. *)
Theorem delta_below_absolute_symmetric limit spec1 spec0 (n : string) result :
  (forall v1 v0,
      glom result spec1 = Ok v1 -> glom result spec0 = Ok v0 ->
      (forall s, v1 <> VStr s) -> (forall s, v0 <> VStr s) ->
      delta_below limit spec1 spec0 true (Some n) result
      = delta_below limit spec0 spec1 true (Some n) result)
  /\ (forall e v0,
         glom result spec1 = Raise e -> caught e = true ->
         glom result spec0 = Ok v0 ->
         delta_below limit spec1 spec0 true (Some n) result
         = delta_below limit spec0 spec1 true (Some n) result).
Proof.
  split.
  - intros v1 v0 H1 H0 Hs1 Hs0.
    rewrite (delta_below_extracted _ _ _ _ _ _ _ _ H1 H0).
    rewrite (delta_below_extracted _ _ _ _ _ _ _ _ H0 H1).
    destruct v1 as [| x1 | s1], v0 as [| x0 | s0];
      try reflexivity;
      try (exfalso; eapply Hs1; reflexivity);
      try (exfalso; eapply Hs0; reflexivity).
    cbn [is_None xorb]. unfold compare_delta. cbn [py_sub py_abs bind delta_name].
    rewrite (abs_sub_comm x1 x0). reflexivity.
  - intros e v0 H1 Hc H0.
    rewrite (delta_below_first_missing _ _ _ _ _ _ _ _ H1 Hc H0).
    rewrite (delta_below_second_missing _ _ _ _ _ _ _ _ H0 H1 Hc).
    reflexivity.
Qed.

(** X9.  With [absolute_value] set and a limit that is zero or negative the
    predicate never fires: whenever it returns, it returns [None]. *)
Theorem delta_below_absolute_nonpositive_limit
  limit spec1 spec0 name result (lim : float) v :
  float_of_limit limit = Ok lim ->
  (lim <=? 0)%float = true ->
  delta_below limit spec1 spec0 true name result = Ok v ->
  v = VNone.
Proof.
  intros Hlim Hle Hret.
  destruct v as [| x | s]; [reflexivity | exfalso | exfalso];
    (destruct (delta_below_Ok_inv _ _ _ _ _ _ _ Hret ltac:(discriminate))
      as (x1 & x0 & lim' & _ & _ & Hlim' & Hlt & _);
     rewrite Hlim in Hlim'; injection Hlim' as <-;
     rewrite (abs_not_below_nonpositive _ _ Hle) in Hlt; discriminate).
Qed.

End ReturnsAndRaises.

(** ** Series: the default specs and the monotonicity checks *)

Lemma list_last_two {A : Type} (l : list A) :
  l = [] \/ (exists a, l = [a]) \/ (exists l' a b, l = (l' ++ [a; b])%list).
Proof.
  induction l as [| x l IH]; [left; reflexivity | right].
  destruct IH as [-> | [[a ->] | (l' & a & b & ->)]].
  - left. exists x. reflexivity.
  - right. exists [], x, a. reflexivity.
  - right. exists (x :: l'), a, b. reflexivity.
Qed.

Lemma last_two_inj {A : Type} (l l' : list A) (a b a' b' : A) :
  (l ++ [a; b])%list = (l' ++ [a'; b'])%list -> a = a' /\ b = b'.
Proof.
  change (l ++ [a; b])%list with (l ++ [a] ++ [b])%list.
  change (l' ++ [a'; b'])%list with (l' ++ [a'] ++ [b'])%list.
  rewrite !app_assoc. intros Heq.
  apply app_inj_tail in Heq as [Heq ->].
  apply app_inj_tail in Heq as [_ ->]. split; reflexivity.
Qed.

Lemma info_vals_only (v : value) :
  glom {| info_vals := [v] |} (info_vals_T (-1)) = Ok v.
Proof. reflexivity. Qed.

Lemma info_vals_last_one l v :
  glom {| info_vals := (l ++ [v])%list |} (info_vals_T (-1)) = Ok v.
Proof.
  unfold glom, info_vals_T; cbn [resolve info_vals].
  rewrite py_index_last. reflexivity.
Qed.

Section SeriesProperties.

Context `{Builtins}.

Lemma value_below_truthy limit spec name result v :
  value_below limit spec name result = Ok v -> v = VNone \/ truthy v = true.
Proof.
  unfold value_below. intros Hret.
  destruct (glom result spec) as [v1 | e]; [| discriminate]. cbn [bind] in Hret.
  destruct (float_of_limit limit) as [lim | e]; [| discriminate]. cbn [bind] in Hret.
  destruct v1 as [| x | s]; try discriminate. cbn [py_lt bind] in Hret.
  destruct (x <? lim)%float; injection Hret as <-;
    [right; apply message_truthy | left; reflexivity].
Qed.

Lemma delta_below_truthy limit spec1 spec0 absolute_value name result v :
  delta_below limit spec1 spec0 absolute_value name result = Ok v ->
  v = VNone \/ truthy v = true.
Proof.
  intros Hret. destruct v as [| x | s]; [left; reflexivity | right | right];
    (destruct (delta_below_Ok_inv _ _ _ _ _ _ _ Hret ltac:(discriminate))
      as (x1 & x0 & lim & _ & _ & _ & _ & Hv);
     rewrite Hv; apply message_truthy).
Qed.

(** What the error check computes on the last two entries, whatever they
    are. *)
Lemma check_monotonic_error_last_values l a b :
  check_monotonic_error {| info_vals := (l ++ [a; b])%list |}
  = if xorb (is_None a) (is_None b) then Ok VNone
    else compare_delta (LInt 0) false
           "Loss of monotonic convergence; error decrease" a b.
Proof.
  unfold check_monotonic_error, _monotonic_convergence.
  rewrite (delta_below_extracted _ _ _ _ _ _ _ _
             (info_vals_last_but_one l _ _) (info_vals_last l _ _)).
  reflexivity.
Qed.

Lemma check_monotonic_fidelity_last_values l a b :
  check_monotonic_fidelity {| info_vals := (l ++ [a; b])%list |}
  = if xorb (is_None b) (is_None a) then Ok VNone
    else compare_delta (LInt 0) false
           "Loss of monotonic convergence; fidelity increase" b a.
Proof.
  unfold check_monotonic_fidelity, _monotonic_fidelity.
  rewrite (delta_below_extracted _ _ _ _ _ _ _ _
             (info_vals_last l _ _) (info_vals_last_but_one l _ _)).
  reflexivity.
Qed.

Lemma check_monotonic_error_Ok_inv result v :
  check_monotonic_error result = Ok v ->
  v = VNone
  \/ (v = VStr "Loss of monotonic convergence; error decrease < 0"
      /\ exists l prev cur,
          info_vals result = (l ++ [VFloat prev; VFloat cur])%list
          /\ (prev <? cur)%float = true).
Proof.
  destruct result as [series]. intros Hret.
  destruct (list_last_two series) as [-> | [[a ->] | (l & a & b & ->)]].
  - discriminate.
  - destruct a; [discriminate | |]; injection Hret as <-; left; reflexivity.
  - rewrite check_monotonic_error_last_values in Hret.
    destruct a as [| prev | s], b as [| cur | s'];
      try discriminate; try (injection Hret as <-; left; reflexivity).
    rewrite <- (check_monotonic_error_last_values l (VFloat prev) (VFloat cur)) in Hret.
    rewrite check_monotonic_error_last_two, sub_ltb_zero in Hret.
    destruct (prev <? cur)%float eqn:Hlt; injection Hret as <-.
    + right. split; [reflexivity |]. exists l, prev, cur. split; [reflexivity | exact Hlt].
    + left; reflexivity.
Qed.

Lemma check_monotonic_fidelity_Ok_inv result v :
  check_monotonic_fidelity result = Ok v ->
  v = VNone
  \/ (v = VStr "Loss of monotonic convergence; fidelity increase < 0"
      /\ exists l prev cur,
          info_vals result = (l ++ [VFloat prev; VFloat cur])%list
          /\ (cur <? prev)%float = true).
Proof.
  destruct result as [series]. intros Hret.
  destruct (list_last_two series) as [-> | [[a ->] | (l & a & b & ->)]].
  - discriminate.
  - destruct a; [discriminate | |]; injection Hret as <-; left; reflexivity.
  - rewrite check_monotonic_fidelity_last_values in Hret.
    destruct a as [| prev | s], b as [| cur | s'];
      try discriminate; try (injection Hret as <-; left; reflexivity).
    rewrite <- (check_monotonic_fidelity_last_values l (VFloat prev) (VFloat cur)) in Hret.
    rewrite check_monotonic_fidelity_last_two, sub_ltb_zero in Hret.
    destruct (cur <? prev)%float eqn:Hlt; injection Hret as <-.
    + right. split; [reflexivity |]. exists l, prev, cur. split; [reflexivity | exact Hlt].
    + left; reflexivity.
Qed.

End SeriesProperties.

Section SeriesTheorems.

Context `{Builtins}.

(** X10.  On a series that ends with two numbers [check_monotonic_error]
    fires exactly when the last one is greater than the one before, whatever
    precedes them; and whatever the series, a value it returns is [None] or
    the fixed message. *)
Theorem check_monotonic_error_fires_when_greater :
  (forall l prev cur,
      check_monotonic_error {| info_vals := (l ++ [VFloat prev; VFloat cur])%list |}
      = if (prev <? cur)%float
        then Ok (VStr "Loss of monotonic convergence; error decrease < 0")
        else Ok VNone)
  /\ (forall result v,
         check_monotonic_error result = Ok v ->
         v = VNone
         \/ v = VStr "Loss of monotonic convergence; error decrease < 0").
Proof.
  split.
  - intros l prev cur.
    rewrite check_monotonic_error_last_two, sub_ltb_zero. reflexivity.
  - intros result v Hret.
    destruct (check_monotonic_error_Ok_inv _ _ Hret) as [Hv | [Hv _]]; auto.
Qed.

(** X11.  On a series that ends with two numbers [check_monotonic_fidelity]
    fires exactly when the last one is smaller than the one before, whatever
    precedes them; and whatever the series, a value it returns is [None] or
    the fixed message. *)
Theorem check_monotonic_fidelity_fires_when_smaller :
  (forall l prev cur,
      check_monotonic_fidelity {| info_vals := (l ++ [VFloat prev; VFloat cur])%list |}
      = if (cur <? prev)%float
        then Ok (VStr "Loss of monotonic convergence; fidelity increase < 0")
        else Ok VNone)
  /\ (forall result v,
         check_monotonic_fidelity result = Ok v ->
         v = VNone
         \/ v = VStr "Loss of monotonic convergence; fidelity increase < 0").
Proof.
  split.
  - intros l prev cur.
    rewrite check_monotonic_fidelity_last_two, sub_ltb_zero. reflexivity.
  - intros result v Hret.
    destruct (check_monotonic_fidelity_Ok_inv _ _ Hret) as [Hv | [Hv _]]; auto.
Qed.

(** X12.  The two monotonicity checks never fire on the same record: when both
    return, at least one of them returns [None]. *)
Theorem monotonic_checks_exclusive result v v' :
  check_monotonic_error result = Ok v ->
  check_monotonic_fidelity result = Ok v' ->
  v = VNone \/ v' = VNone.
Proof.
  intros He Hf.
  destruct (check_monotonic_error_Ok_inv _ _ He)
    as [Hv | [_ (l & prev & cur & Hl & Hlt)]]; [left; exact Hv |].
  destruct (check_monotonic_fidelity_Ok_inv _ _ Hf)
    as [Hv | [_ (l' & prev' & cur' & Hl' & Hlt')]]; [right; exact Hv |].
  exfalso. rewrite Hl in Hl'. apply last_two_inj in Hl' as [Hp Hc].
  injection Hp as <-. injection Hc as <-.
  rewrite (ltb_asym _ _ Hlt) in Hlt'. discriminate.
Qed.

(** X13.  The first iterations.  On a series of one entry that is not [None] both
    checks return [None]; on the empty series both raise the error of their
    second extraction ([spec0]): the last entry for the error check, the
    last but one for the fidelity check. *)
Theorem monotonic_checks_short_series :
  (forall v, v <> VNone ->
             check_monotonic_error {| info_vals := [v] |} = Ok VNone
             /\ check_monotonic_fidelity {| info_vals := [v] |} = Ok VNone)
  /\ (exists e, glom {| info_vals := [] |} (info_vals_T (-1)) = Raise e
                /\ caught e = true
                /\ check_monotonic_error {| info_vals := [] |} = Raise e)
  /\ (exists e, glom {| info_vals := [] |} (info_vals_T (-2)) = Raise e
                /\ caught e = true
                /\ check_monotonic_fidelity {| info_vals := [] |} = Raise e).
Proof.
  split; [| split].
  - intros v Hv. destruct v; [contradiction | |]; split; reflexivity.
  - eexists. repeat split; reflexivity.
  - eexists. repeat split; reflexivity.
Qed.

(** X14.  [value_below] with the default spec looks at the last entry only: on a
    series that ends with a number it compares that number with the limit,
    whatever comes before; on the empty series it raises the extractor's
    error. *)
Theorem value_below_default_spec limit name (lim : float) :
  float_of_limit limit = Ok lim ->
  let check := value_below limit (info_vals_T (-1)) name in
  (forall l x,
      check {| info_vals := (l ++ [VFloat x])%list |}
      = if (x <? lim)%float
        then Ok (VStr (message (value_name (info_vals_T (-1)) name) limit))
        else Ok VNone)
  /\ (exists e, glom {| info_vals := [] |} (info_vals_T (-1)) = Raise e
                /\ check {| info_vals := [] |} = Raise e).
Proof.
  intros Hlim check. split.
  - intros l x. subst check. unfold value_below.
    rewrite info_vals_last_one. cbn [bind]. rewrite Hlim. reflexivity.
  - eexists. split; reflexivity.
Qed.

(** X15.  [delta_below] with the default specs looks at the last two entries
    only: on a series that ends with two numbers it compares their
    difference (last minus last but one) with the limit; on a series of one
    entry that is not [None] it returns [None]; on the empty series it raises
    the error of the extraction of the last but one entry. *)
Theorem delta_below_default_specs limit absolute_value name (lim : float) :
  float_of_limit limit = Ok lim ->
  let check :=
    delta_below limit (info_vals_T (-1)) (info_vals_T (-2)) absolute_value name in
  (forall l prev cur,
      check {| info_vals := (l ++ [VFloat prev; VFloat cur])%list |}
      = if ((if absolute_value then abs (cur - prev) else cur - prev) <? lim)%float
        then Ok (VStr (message
                         (delta_name (info_vals_T (-1)) (info_vals_T (-2)) name)
                         limit))
        else Ok VNone)
  /\ (forall v, v <> VNone -> check {| info_vals := [v] |} = Ok VNone)
  /\ (exists e, glom {| info_vals := [] |} (info_vals_T (-2)) = Raise e
                /\ check {| info_vals := [] |} = Raise e).
Proof.
  intros Hlim check. split; [| split].
  - intros l prev cur. subst check.
    rewrite (delta_below_extracted _ _ _ _ _ _ _ _
               (info_vals_last l _ _) (info_vals_last_but_one l _ _)).
    cbn [is_None xorb]. unfold compare_delta. cbn [py_sub bind].
    destruct absolute_value; cbn [py_abs bind]; rewrite Hlim; reflexivity.
  - intros v Hv. subst check. destruct v; [contradiction | |]; reflexivity.
  - eexists. split; reflexivity.
Qed.

(** X16.  [Or] over predicates built by [value_below] and [delta_below], the use
    the module documents: the result is that of [value_below] unless it is
    [None], and then that of [delta_below].  No message is lost, since the
    messages are truthy. *)
Theorem Or_value_below_delta_below {W : Type}
  limit spec name limit' spec1 spec0 absolute_value name' result (w : W) :
  Or [pure (value_below limit spec name);
      pure (delta_below limit' spec1 spec0 absolute_value name')] result w
  = (match value_below limit spec name result with
     | Ok VNone => delta_below limit' spec1 spec0 absolute_value name' result
     | res => res
     end, w).
Proof.
  cbn [Or]. unfold pure.
  destruct (value_below limit spec name result) as [v | e] eqn:Hvb; [| reflexivity].
  destruct (value_below_truthy _ _ _ _ _ Hvb) as [-> | Hv].
  - cbn [truthy].
    destruct (delta_below limit' spec1 spec0 absolute_value name' result)
      as [v' | e'] eqn:Hdb; [| reflexivity].
    destruct (delta_below_truthy _ _ _ _ _ _ _ Hdb) as [-> | Hv']; [reflexivity |].
    rewrite Hv'. reflexivity.
  - rewrite Hv. destruct v; try reflexivity. discriminate.
Qed.

End SeriesTheorems.

(** ** The further properties at concrete records *)

Lemma Or_message_from_member_witness :
  let passes : predicate unit := pure (fun _ => Ok (VStr "")) in
  let fires : predicate unit := pure (fun _ => Ok (VStr "B fired")) in
  let result := {| info_vals := [] |} in
  Or [passes; fires; passes] result tt = (Ok (VStr "B fired"), tt)
  /\ truthy (VStr "B fired") = true
  /\ exists funcs1 func funcs2 w1,
      [passes; fires; passes] = (funcs1 ++ func :: funcs2)%list
      /\ all_falsy result funcs1 tt w1
      /\ func result w1 = (Ok (VStr "B fired"), tt).
Proof.
  intros passes fires result. split; [reflexivity |].
  exact (Or_message_from_member [passes; fires; passes] result tt tt
           (VStr "B fired") eq_refl ltac:(discriminate)).
Defined.

Lemma Or_raises_iff_witness :
  let passes : predicate unit := pure (fun _ => Ok VNone) in
  let raises : predicate unit :=
    pure (fun _ => Raise (Exn (OtherError "RuntimeError") "called")) in
  let result := {| info_vals := [] |} in
  Or [passes; raises; passes] result tt
  = (Raise (Exn (OtherError "RuntimeError") "called"), tt).
Proof.
  intros passes raises result.
  apply (proj2 (Or_raises_iff [passes; raises; passes] result tt tt
                  (Exn (OtherError "RuntimeError") "called"))).
  exists [passes], raises, [passes], tt. repeat split.
  econstructor; [reflexivity | reflexivity | constructor].
Defined.

Lemma value_below_returns_witness :
  let result := {| info_vals := [VFloat 1e-4; VFloat 9e-5] |} in
  let msg := VStr "J_T < 1e-4" in
  value_below (H := doc_builtins) (LStr "1e-4") (info_vals_T (-1)) (Some "J_T") result
  = Ok msg
  /\ exists v1 lim,
      glom result (info_vals_T (-1)) = Ok v1
      /\ float_of_limit (H := doc_builtins) (LStr "1e-4") = Ok lim
      /\ (msg = VNone
          \/ (msg = VStr (message (H := doc_builtins)
                            (value_name (info_vals_T (-1)) (Some "J_T"))
                            (LStr "1e-4"))
              /\ truthy msg = true))
      /\ (forall x,
             v1 = VFloat x ->
             msg = if (x <? lim)%float
                   then VStr (message (H := doc_builtins)
                                (value_name (info_vals_T (-1)) (Some "J_T"))
                                (LStr "1e-4"))
                   else VNone).
Proof.
  intros result msg. split; [reflexivity |].
  exact (value_below_returns (H := doc_builtins) (LStr "1e-4") (info_vals_T (-1))
           (Some "J_T") result msg eq_refl).
Defined.

Lemma delta_below_fires_only_witness :
  let result := {| info_vals := [VFloat 1e-6; VFloat 1e-7] |} in
  let check :=
    delta_below (H := doc_builtins) (LStr "1e-4")
      (info_vals_T (-1)) (info_vals_T (-2)) true (Some "DJ_T") in
  let msg := VStr "DJ_T < 1e-4" in
  check result = Ok msg
  /\ msg = VStr (message (H := doc_builtins)
                   (delta_name (info_vals_T (-1)) (info_vals_T (-2)) (Some "DJ_T"))
                   (LStr "1e-4"))
  /\ truthy msg = true
  /\ exists v1 v0 lim,
      glom result (info_vals_T (-1)) = Ok v1
      /\ glom result (info_vals_T (-2)) = Ok v0
      /\ v1 <> VNone /\ v0 <> VNone
      /\ float_of_limit (H := doc_builtins) (LStr "1e-4") = Ok lim
      /\ (forall x1 x0,
             v1 = VFloat x1 -> v0 = VFloat x0 ->
             (abs (x1 - x0) <? lim)%float = true).
Proof.
  intros result check msg. split; [reflexivity |].
  exact (delta_below_fires_only (H := doc_builtins) (LStr "1e-4")
           (info_vals_T (-1)) (info_vals_T (-2)) true (Some "DJ_T") result
           msg eq_refl ltac:(discriminate)).
Defined.

Lemma delta_below_absolute_symmetric_witness :
  let check :=
    delta_below (H := doc_builtins) (LStr "1e-4")
      (info_vals_T (-1)) (info_vals_T (-2)) true (Some "DJ_T") in
  let check' :=
    delta_below (H := doc_builtins) (LStr "1e-4")
      (info_vals_T (-2)) (info_vals_T (-1)) true (Some "DJ_T") in
  check {| info_vals := [VFloat 1e-6; VFloat 1e-7] |}
  = check' {| info_vals := [VFloat 1e-6; VFloat 1e-7] |}
  /\ check' {| info_vals := [VFloat 1e-6] |} = check {| info_vals := [VFloat 1e-6] |}.
Proof.
  intros check check'. split.
  - exact (proj1 (delta_below_absolute_symmetric (H := doc_builtins) (LStr "1e-4")
                    (info_vals_T (-1)) (info_vals_T (-2)) "DJ_T"
                    {| info_vals := [VFloat 1e-6; VFloat 1e-7] |})
             (VFloat 1e-7) (VFloat 1e-6) eq_refl eq_refl
             ltac:(discriminate) ltac:(discriminate)).
  - exact (proj2 (delta_below_absolute_symmetric (H := doc_builtins) (LStr "1e-4")
                    (info_vals_T (-2)) (info_vals_T (-1)) "DJ_T"
                    {| info_vals := [VFloat 1e-6] |})
             _ (VFloat 1e-6) eq_refl eq_refl eq_refl).
Defined.

Lemma delta_below_absolute_nonpositive_limit_witness :
  let result := {| info_vals := [VFloat 0.5; VFloat 0.5] |} in
  float_of_limit (H := doc_builtins) (LInt 0) = Ok 0%float
  /\ (0 <=? 0)%float = true
  /\ delta_below (H := doc_builtins) (LInt 0)
       (info_vals_T (-1)) (info_vals_T (-2)) true None result = Ok VNone
  /\ VNone = VNone.
Proof.
  intros result.
  split; [reflexivity |]. split; [reflexivity |]. split; [reflexivity |].
  exact (delta_below_absolute_nonpositive_limit (H := doc_builtins) (LInt 0)
           (info_vals_T (-1)) (info_vals_T (-2)) None result 0%float VNone
           eq_refl eq_refl eq_refl).
Defined.

Lemma check_monotonic_error_fires_when_greater_witness :
  check_monotonic_error (H := doc_builtins)
    {| info_vals := [VFloat 9e-1; VFloat 1e-1; VFloat 2e-1] |}
  = Ok (VStr "Loss of monotonic convergence; error decrease < 0")
  /\ check_monotonic_error (H := doc_builtins)
       {| info_vals := [VFloat 9e-1; VFloat 1e-1] |}
     = Ok VNone
  /\ (VNone = VNone
      \/ VNone = VStr "Loss of monotonic convergence; error decrease < 0").
Proof.
  split; [| split].
  - exact (proj1 (check_monotonic_error_fires_when_greater (H := doc_builtins))
             [VFloat 9e-1] 1e-1%float 2e-1%float).
  - exact (proj1 (check_monotonic_error_fires_when_greater (H := doc_builtins))
             [] 9e-1%float 1e-1%float).
  - exact (proj2 (check_monotonic_error_fires_when_greater (H := doc_builtins))
             {| info_vals := [VFloat 9e-1] |} VNone eq_refl).
Defined.

Lemma check_monotonic_fidelity_fires_when_smaller_witness :
  check_monotonic_fidelity (H := doc_builtins)
    {| info_vals := [VFloat 0.0; VFloat 0.2; VFloat 0.15] |}
  = Ok (VStr "Loss of monotonic convergence; fidelity increase < 0")
  /\ check_monotonic_fidelity (H := doc_builtins)
       {| info_vals := [VFloat 0.0; VFloat 0.2] |}
     = Ok VNone
  /\ (VNone = VNone
      \/ VNone = VStr "Loss of monotonic convergence; fidelity increase < 0").
Proof.
  split; [| split].
  - exact (proj1 (check_monotonic_fidelity_fires_when_smaller (H := doc_builtins))
             [VFloat 0.0] 0.2%float 0.15%float).
  - exact (proj1 (check_monotonic_fidelity_fires_when_smaller (H := doc_builtins))
             [] 0.0%float 0.2%float).
  - exact (proj2 (check_monotonic_fidelity_fires_when_smaller (H := doc_builtins))
             {| info_vals := [VFloat 0.0] |} VNone eq_refl).
Defined.

Lemma monotonic_checks_exclusive_witness :
  let result := {| info_vals := [VFloat 9e-1; VFloat 1e-1; VFloat 2e-1] |} in
  check_monotonic_error (H := doc_builtins) result
  = Ok (VStr "Loss of monotonic convergence; error decrease < 0")
  /\ check_monotonic_fidelity (H := doc_builtins) result = Ok VNone
  /\ (VStr "Loss of monotonic convergence; error decrease < 0" = VNone
      \/ VNone = VNone).
Proof.
  intros result. split; [reflexivity |]. split; [reflexivity |].
  exact (monotonic_checks_exclusive (H := doc_builtins) result _ _ eq_refl eq_refl).
Defined.

Lemma monotonic_checks_short_series_witness :
  check_monotonic_error (H := doc_builtins) {| info_vals := [VFloat 9e-1] |} = Ok VNone
  /\ check_monotonic_fidelity (H := doc_builtins) {| info_vals := [VFloat 9e-1] |}
     = Ok VNone.
Proof.
  exact (proj1 (monotonic_checks_short_series (H := doc_builtins))
           (VFloat 9e-1) ltac:(discriminate)).
Defined.

Lemma value_below_default_spec_witness :
  let check := value_below (H := doc_builtins) (LStr "1e-4") (info_vals_T (-1)) None in
  float_of_limit (H := doc_builtins) (LStr "1e-4") = Ok 1e-4%float
  /\ check {| info_vals := [VFloat 1e-4; VFloat 9e-5] |}
     = Ok (VStr "('info_vals', T[-1]) < 1e-4").
Proof.
  intros check. split; [reflexivity |].
  exact (proj1 (value_below_default_spec (H := doc_builtins) (LStr "1e-4") None
                  1e-4%float eq_refl) [VFloat 1e-4] 9e-5%float).
Defined.

Lemma delta_below_default_specs_witness :
  let check :=
    delta_below (H := doc_builtins) (LStr "1e-4")
      (info_vals_T (-1)) (info_vals_T (-2)) true (Some "DJ_T") in
  float_of_limit (H := doc_builtins) (LStr "1e-4") = Ok 1e-4%float
  /\ check {| info_vals := [VFloat 2e-4; VFloat 1e-6; VFloat 1e-7] |}
     = Ok (VStr "DJ_T < 1e-4")
  /\ check {| info_vals := [VFloat 2e-4] |} = Ok VNone.
Proof.
  intros check. split; [reflexivity |]. split.
  - exact (proj1 (delta_below_default_specs (H := doc_builtins) (LStr "1e-4") true
                    (Some "DJ_T") 1e-4%float eq_refl)
             [VFloat 2e-4] 1e-6%float 1e-7%float).
  - exact (proj1 (proj2 (delta_below_default_specs (H := doc_builtins) (LStr "1e-4")
                           true (Some "DJ_T") 1e-4%float eq_refl))
             (VFloat 2e-4) ltac:(discriminate)).
Defined.
